(** * OMF-Consumer: the queue consumer service (consumer.service.ts)

    A shallow embedding of [ConsumerService]: the consume loop
    [pollQueue], the event dispatcher [handleUserEvent] and the two
    read operations [getUserStatus] and [getEntireUserDetails].

    The service is effectful TypeScript: it talks to a queue (SQS), to a
    key-value store (DynamoDB), reads the clock, draws random
    identifiers, writes to a logger and re-schedules itself.  All of
    that is threaded through an explicit [World] by a small
    state-and-exception monad [M]; [try]/[catch] is [try_catch]. *)

From Stdlib Require Import Ascii String ZArith.
From stdpp Require Import base option list strings gmap fin_maps.

Local Open Scope string_scope.
Local Open Scope Z_scope.
Local Set Warnings "-register-all".

Module Consumer.


(** ** JavaScript values

    A message body is untyped JSON, so [body.user] and its fields are
    arbitrary JSON values.  [undefined] (an absent property) is [None]
    of [option json].  Numbers are modelled by integers: on every path
    of the service a number is only tested for truthiness and handed to
    [marshall]. *)

Inductive json : Type :=
| JNull
| JBool (b : bool)
| JNum (n : Z)
| JStr (s : string)
| JArr (l : list json)
| JObj (kvs : list (string * json)).

(** ToBoolean: [undefined], [null], [false], [0] and [''] are falsy. *)
Definition truthy (v : option json) : bool :=
  match v with
  | None => false
  | Some JNull => false
  | Some (JBool b) => b
  | Some (JNum n) => negb (n =? 0)
  | Some (JStr s) => negb (String.eqb s "")
  | Some (JArr _) => true
  | Some (JObj _) => true
  end.

(** [v || d] with a defined right operand. *)
Definition js_or (v : option json) (d : json) : json :=
  match v with
  | Some x => if truthy v then x else d
  | None => d
  end.

Fixpoint assoc {A : Type} (k : string) (kvs : list (string * A)) : option A :=
  match kvs with
  | [] => None
  | (k', v) :: r => if String.eqb k k' then Some v else assoc k r
  end.

(** [v.k] for a non-null value [v] and one of the property names the
    service reads ([user], [operation], [id], [firstName], [lastName],
    [email], [dob], [status]): own properties of an object, [undefined]
    on every other kind of value. *)
Definition prop (v : json) (k : string) : option json :=
  match v with
  | JObj kvs => assoc k kvs
  | _ => None
  end.

(** [v === 'lit'] *)
Definition strict_eq_str (v : option json) (lit : string) : bool :=
  match v with
  | Some (JStr s) => String.eqb s lit
  | _ => false
  end.

(** ** DynamoDB attribute values and [marshall] *)

Inductive AttributeValue : Type :=
| AV_S (s : string)
| AV_N (n : Z)
| AV_BOOL (b : bool)
| AV_NULL
| AV_L (l : list AttributeValue)
| AV_M (m : list (string * AttributeValue)).

Abbreviation Item := (gmap string AttributeValue).

Definition MAX_SAFE_INTEGER : Z := 9007199254740991.

(** util-dynamodb's [convertToAttr]: a number outside the safe integer
    range makes [marshall] throw ([None]). *)
Fixpoint convertToAttr (v : json) : option AttributeValue :=
  match v with
  | JNull => Some AV_NULL
  | JBool b => Some (AV_BOOL b)
  | JNum n =>
      if (n >? MAX_SAFE_INTEGER) || (n <? - MAX_SAFE_INTEGER)
      then None else Some (AV_N n)
  | JStr s => Some (AV_S s)
  | JArr l =>
      option_map AV_L
        ((fix go (l : list json) : option (list AttributeValue) :=
            match l with
            | [] => Some []
            | x :: r =>
                match convertToAttr x, go r with
                | Some a, Some ar => Some (a :: ar)
                | _, _ => None
                end
            end) l)
  | JObj kvs =>
      option_map AV_M
        ((fix go (l : list (string * json)) : option (list (string * AttributeValue)) :=
            match l with
            | [] => Some []
            | (k, x) :: r =>
                match convertToAttr x, go r with
                | Some a, Some ar => Some ((k, a) :: ar)
                | _, _ => None
                end
            end) kvs)
  end.

(** [marshall(obj, { removeUndefinedValues: true })] on an object literal
    given by its properties in source order: an [undefined] property is
    left out of the result. *)
Fixpoint marshall (fields : list (string * option json)) : option Item :=
  match fields with
  | [] => Some ∅
  | (k, None) :: r => marshall r
  | (k, Some v) :: r =>
      match convertToAttr v, marshall r with
      | Some a, Some m => Some (<[k := a]> m)
      | _, _ => None
      end
  end.

(** ** Commands sent to the store

    [UpdateExpression] is kept as the list of its [SET] actions
    [(path, value placeholder)]; a path starting with [#] is a
    placeholder resolved through [ExpressionAttributeNames].  The only
    condition the service ever sends is [attribute_exists(id)]. *)

(** A hand-built attribute value [{ S: v }]: [v] is whatever the
    JavaScript expression evaluated to. *)
Inductive AttrInput : Type :=
| InS (v : json).

Inductive Condition : Type :=
| attribute_exists (path : string).

Record UpdateItemInput : Type := mkUpdateItemInput {
  Key : Item;
  UpdateExpression : list (string * string);
  ExpressionAttributeValues : list (string * AttrInput);
  ExpressionAttributeNames : list (string * string);
  ConditionExpression : Condition;
}.

(** [KeyConditionExpression] is the conjunction of its equalities
    [(attribute, value placeholder)]. *)
Record QueryInput : Type := mkQueryInput {
  IndexName : option string;
  KeyConditionExpression : list (string * string);
  QueryValues : list (string * AttrInput);
}.

Inductive DdbCommand : Type :=
| PutItemCommand (item : Item)
| UpdateItemCommand (input : UpdateItemInput)
| QueryCommand (input : QueryInput).

(** ** Commands sent to the queue *)

Record Message : Type := mkMessage {
  Body : option string;
  ReceiptHandle : option string;
}.

Inductive SqsCommand : Type :=
| ReceiveMessageCommand (MaxNumberOfMessages WaitTimeSeconds : Z)
| DeleteMessageCommand (handle : option string).

(** What one receive call can yield: a rejected promise, or a response
    whose [Messages] is [undefined] or a list. *)
Inductive RecvOutcome : Type :=
| RecvFails
| RecvResponse (Messages : option (list Message)).

(** ** Exceptions and the logger *)

Inductive Exn : Type :=
| JsError (msg : string)
| BadRequestException (msg : string)
| SyntaxError
| TypeError
| DynamoDBException (name : string)
| SQSException.

Inductive Level : Type := LOG | WARN | ERROR.

(** What is interpolated into, or passed along with, a log message. *)
Inductive LogArg : Type :=
| NoArg
| ArgVal (v : option json)
| ArgStr (s : option string)
| ArgExn (e : Exn).

Record LogEntry : Type := mkLog {
  level : Level;
  text : string;
  arg : LogArg;
}.

(** How the next [pollQueue] invocation is requested: by the direct call
    [this.pollQueue()] or through [setTimeout(..., ms)]. *)
Inductive Schedule : Type :=
| Immediately
| After (ms : Z).

(** ** The world

    [table] is the store's table, keyed by the primary key [id].
    [ddb_faults], [sqs_inbox] and [sqs_delete_faults] are what the
    outside will do on the next calls: whether a store request fails for
    a reason of the service's own (network, throttling), what the next
    receive calls yield, whether a delete call fails.  [ddb_sent] and
    [sqs_sent] record every command sent, in order. *)
Record World : Type := mkWorld {
  table : gmap string Item;
  ddb_sent : list DdbCommand;
  ddb_faults : list bool;
  sqs_inbox : list RecvOutcome;
  sqs_delete_faults : list bool;
  sqs_sent : list SqsCommand;
  uuid_calls : nat;
  date_calls : nat;
  logs : list LogEntry;
  timers : list Schedule;
}.

Definition set_table (t : gmap string Item) (w : World) : World :=
  mkWorld t (ddb_sent w) (ddb_faults w) (sqs_inbox w) (sqs_delete_faults w)
          (sqs_sent w) (uuid_calls w) (date_calls w) (logs w) (timers w).
Definition set_ddb_sent (l : list DdbCommand) (w : World) : World :=
  mkWorld (table w) l (ddb_faults w) (sqs_inbox w) (sqs_delete_faults w)
          (sqs_sent w) (uuid_calls w) (date_calls w) (logs w) (timers w).
Definition set_ddb_faults (l : list bool) (w : World) : World :=
  mkWorld (table w) (ddb_sent w) l (sqs_inbox w) (sqs_delete_faults w)
          (sqs_sent w) (uuid_calls w) (date_calls w) (logs w) (timers w).
Definition set_sqs_inbox (l : list RecvOutcome) (w : World) : World :=
  mkWorld (table w) (ddb_sent w) (ddb_faults w) l (sqs_delete_faults w)
          (sqs_sent w) (uuid_calls w) (date_calls w) (logs w) (timers w).
Definition set_sqs_delete_faults (l : list bool) (w : World) : World :=
  mkWorld (table w) (ddb_sent w) (ddb_faults w) (sqs_inbox w) l
          (sqs_sent w) (uuid_calls w) (date_calls w) (logs w) (timers w).
Definition set_sqs_sent (l : list SqsCommand) (w : World) : World :=
  mkWorld (table w) (ddb_sent w) (ddb_faults w) (sqs_inbox w) (sqs_delete_faults w)
          l (uuid_calls w) (date_calls w) (logs w) (timers w).
Definition set_uuid_calls (n : nat) (w : World) : World :=
  mkWorld (table w) (ddb_sent w) (ddb_faults w) (sqs_inbox w) (sqs_delete_faults w)
          (sqs_sent w) n (date_calls w) (logs w) (timers w).
Definition set_date_calls (n : nat) (w : World) : World :=
  mkWorld (table w) (ddb_sent w) (ddb_faults w) (sqs_inbox w) (sqs_delete_faults w)
          (sqs_sent w) (uuid_calls w) n (logs w) (timers w).
Definition set_logs (l : list LogEntry) (w : World) : World :=
  mkWorld (table w) (ddb_sent w) (ddb_faults w) (sqs_inbox w) (sqs_delete_faults w)
          (sqs_sent w) (uuid_calls w) (date_calls w) l (timers w).
Definition set_timers (l : list Schedule) (w : World) : World :=
  mkWorld (table w) (ddb_sent w) (ddb_faults w) (sqs_inbox w) (sqs_delete_faults w)
          (sqs_sent w) (uuid_calls w) (date_calls w) (logs w) l.

(** ** The monad: state passing with exceptions *)

Inductive Result (A : Type) : Type :=
| Ok (a : A)
| Throw (e : Exn).
Arguments Ok {A} a.
Arguments Throw {A} e.

Definition M (A : Type) : Type := World -> Result A * World.

Definition ret {A : Type} (a : A) : M A := fun w => (Ok a, w).
Definition throw {A : Type} (e : Exn) : M A := fun w => (Throw e, w).
Definition bind {A B : Type} (m : M A) (k : A -> M B) : M B :=
  fun w =>
    match m w with
    | (Ok a, w') => k a w'
    | (Throw e, w') => (Throw e, w')
    end.
(** [try { m } catch (error) { h error }] *)
Definition try_catch {A : Type} (m : M A) (h : Exn -> M A) : M A :=
  fun w =>
    match m w with
    | (Ok a, w') => (Ok a, w')
    | (Throw e, w') => h e w'
    end.

Declare Scope m_scope.
Delimit Scope m_scope with M.
Notation "x <- c1 ;; c2" := (bind c1 (fun x => c2))
  (at level 100, c1 at next level, right associativity) : m_scope.
Notation "c1 ;; c2" := (bind c1 (fun _ => c2))
  (at level 100, right associativity) : m_scope.
Local Open Scope m_scope.

(** [if (cond) { throw e }] *)
Definition throw_if (cond : bool) (e : Exn) : M unit :=
  if cond then throw e else ret tt.

(** A pure step that can throw: [None] is the exception [e]. *)
Definition or_throw {A : Type} (o : option A) (e : Exn) : M A :=
  match o with
  | Some a => ret a
  | None => throw e
  end.

Definition logger (lv : Level) (msg : string) (a : LogArg) : M unit :=
  fun w => (Ok tt, set_logs (logs w ++ [mkLog lv msg a]) w).

(** [for (const x of xs) { body(x) }]: the first exception ends the loop. *)
Fixpoint for_of {A : Type} (xs : list A) (body : A -> M unit) : M unit :=
  match xs with
  | [] => ret tt
  | x :: r => body x ;; for_of r body
  end.

(** ** The store

    The store is an external collaborator (DynamoDB behind the AWS SDK);
    none of its code is in the repository.  Its three operations follow
    the store client of section 6 of the specification.  The primary key
    of the table is the string attribute [id]; a hand-built [{ S: v }]
    whose [v] is not a string is refused before anything else. *)

Definition key_of (k : Item) : option string :=
  match k !! "id" with
  | Some (AV_S s) => Some s
  | _ => None
  end.

Definition well_typed (kv : string * AttrInput) : bool :=
  match kv with
  | (_, InS (JStr _)) => true
  | _ => false
  end.

Definition resolve_name (names : list (string * string)) (path : string)
  : option string :=
  match path with
  | String "#"%char _ => assoc path names
  | _ => Some path
  end.

Definition eval_condition (c : Condition) (o : option Item) : bool :=
  match c, o with
  | attribute_exists p, Some it => bool_decide (is_Some (it !! p))
  | attribute_exists _, None => false
  end.

(** The [SET] actions, left to right.  A path or placeholder that does
    not resolve, and an assignment to the key attribute, are refused. *)
Fixpoint apply_set (names : list (string * string))
    (values : list (string * AttrInput))
    (acts : list (string * string)) (it : Item) : option Item :=
  match acts with
  | [] => Some it
  | (path, ph) :: r =>
      match resolve_name names path, assoc ph values with
      | Some a, Some (InS (JStr s)) =>
          if String.eqb a "id" then None
          else apply_set names values r (<[a := AV_S s]> it)
      | _, _ => None
      end
  end.

(** Modelled from the spec: [putRecord(record, overwrite=true)] of the
    store client, absent from the repository.  The item is inserted
    under its primary key, replacing what was there. *)
Definition ddb_put (item : Item) (t : gmap string Item)
  : string + gmap string Item :=
  match key_of item with
  | None => inl "ValidationException"
  | Some k => inr (<[k := item]> t)
  end.

(** Modelled from the spec: [updateRecord(key, fieldUpdates,
    conditionMustExist)] of the store client, absent from the
    repository.  The updates are applied to the item under the key only
    if the condition holds for it; otherwise the request fails with the
    failed condition, told apart from the other errors, and the table is
    left as it was. *)
Definition ddb_update (inp : UpdateItemInput) (t : gmap string Item)
  : string + gmap string Item :=
  if negb (forallb well_typed (ExpressionAttributeValues inp))
  then inl "SerializationException"
  else
    match key_of (Key inp) with
    | None => inl "ValidationException"
    | Some k =>
        if eval_condition (ConditionExpression inp) (t !! k) then
          match t !! k with
          | Some it =>
              match apply_set (ExpressionAttributeNames inp)
                      (ExpressionAttributeValues inp)
                      (UpdateExpression inp) it with
              | Some it' => inr (<[k := it']> t)
              | None => inl "ValidationException"
              end
          | None => inl "ConditionalCheckFailedException"
          end
        else inl "ConditionalCheckFailedException"
    end.

Definition matches (values : list (string * AttrInput))
    (conds : list (string * string)) (it : Item) : bool :=
  forallb
    (fun c : string * string =>
       match assoc (snd c) values, it !! fst c with
       | Some (InS (JStr s)), Some (AV_S s') => String.eqb s s'
       | _, _ => false
       end)
    conds.

(** Modelled from the spec: [queryByIndex] and [queryByKey] of the store
    client, absent from the repository.  The items satisfying every key
    equality come back, in the order of the table. *)
Definition ddb_query (q : QueryInput) (t : gmap string Item)
  : string + list Item :=
  if negb (forallb well_typed (QueryValues q))
  then inl "SerializationException"
  else inr (List.filter (matches (QueryValues q) (KeyConditionExpression q))
              (map snd (map_to_list t))).

(** The response of a command: only a query has [Items]. *)
Definition ddb_exec (c : DdbCommand) (t : gmap string Item)
  : string + (gmap string Item * option (list Item)) :=
  match c with
  | PutItemCommand item =>
      match ddb_put item t with
      | inl e => inl e
      | inr t' => inr (t', None)
      end
  | UpdateItemCommand inp =>
      match ddb_update inp t with
      | inl e => inl e
      | inr t' => inr (t', None)
      end
  | QueryCommand q =>
      match ddb_query q t with
      | inl e => inl e
      | inr items => inr (t, Some items)
      end
  end.

(** Every stored item carries its key attribute under its own key. *)
Definition has_id (k : string) (it : Item) : bool :=
  match it !! "id" with
  | Some (AV_S s) => String.eqb s k
  | _ => false
  end.

Definition wf_table (t : gmap string Item) : Prop :=
  map_Forall (fun k it => has_id k it = true) t.

(** [this.dynamoDBClient.send(command)]: the command is recorded, then
    either the service fails on its own account and nothing happens, or
    the store executes it. *)
Definition dynamoDBClient_send (c : DdbCommand) : M (option (list Item)) :=
  fun w =>
    let w1 := set_ddb_faults (tail (ddb_faults w))
                (set_ddb_sent (ddb_sent w ++ [c]) w) in
    match ddb_faults w with
    | true :: _ => (Throw (DynamoDBException "ServiceUnavailable"), w1)
    | _ =>
        match ddb_exec c (table w) with
        | inl name => (Throw (DynamoDBException name), w1)
        | inr (t', items) => (Ok items, set_table t' w1)
        end
    end.

(** ** The queue

    [this.sqsClient.send(new ReceiveMessageCommand(...))]: at most
    [MaxNumberOfMessages] messages come back.  An exhausted [sqs_inbox]
    is a queue that stays empty. *)
Definition sqsClient_receive (max wait : Z) : M (option (list Message)) :=
  fun w =>
    let w1 := set_sqs_inbox (tail (sqs_inbox w))
                (set_sqs_sent (sqs_sent w ++ [ReceiveMessageCommand max wait]) w) in
    match sqs_inbox w with
    | RecvFails :: _ => (Throw SQSException, w1)
    | RecvResponse ms :: _ => (Ok (take (Z.to_nat max) <$> ms), w1)
    | [] => (Ok None, w1)
    end.

Definition sqsClient_delete (handle : option string) : M unit :=
  fun w =>
    let w1 := set_sqs_delete_faults (tail (sqs_delete_faults w))
                (set_sqs_sent (sqs_sent w ++ [DeleteMessageCommand handle]) w) in
    match sqs_delete_faults w with
    | true :: _ => (Throw SQSException, w1)
    | _ => (Ok tt, w1)
    end.

(** [setTimeout(() => this.pollQueue(), ms)] and the direct call
    [this.pollQueue()]: the call of an async function is not awaited and
    cannot throw into its caller, it is one more pending invocation. *)
Definition setTimeout_pollQueue (ms : Z) : M unit :=
  fun w => (Ok tt, set_timers (timers w ++ [After ms]) w).
Definition call_pollQueue : M unit :=
  fun w => (Ok tt, set_timers (timers w ++ [Immediately]) w).

(** ** The environment: [JSON.parse], [uuidv4()] and the clock

    [JSON_parse s] is [None] when [JSON.parse] throws.  [uuid_at n] is
    what the [n]-th call of [uuidv4()] returns, [iso_at n] what the
    [n]-th evaluation of [new Date().toISOString()] returns. *)
Record Env : Type := mkEnv {
  JSON_parse : string -> option json;
  uuid_at : nat -> string;
  iso_at : nat -> string;
}.

(** ** ConsumerService *)

Definition pollingInterval : Z := 10000.

(** [!s] for a value that is a string or [undefined]. *)
Definition falsy_str (s : option string) : bool :=
  match s with
  | Some x => String.eqb x ""
  | None => true
  end.

(** The object literal handed to [marshall] at lines 100-110. *)
Definition new_user_fields (user : json) (id createdAt updatedAt : string)
  : list (string * option json) :=
  [ ("id", Some (JStr id));
    ("firstName", prop user "firstName");
    ("lastName", prop user "lastName");
    ("email", prop user "email");
    ("dob", prop user "dob");
    ("status", Some (js_or (prop user "status") (JStr "active")));
    ("createdAt", Some (JStr createdAt));
    ("updatedAt", Some (JStr updatedAt)) ].

(** The [UpdateItemCommandInput] of the [update] branch, lines 130-156. *)
Definition update_input (user : json) (updatedAt : string) (key : Item)
  : UpdateItemInput :=
  {| Key := key;
     UpdateExpression :=
       [ ("#firstName", ":firstName"); ("#lastName", ":lastName");
         ("#dob", ":dob"); ("#updatedAt", ":updatedAt");
         ("#status", ":status") ];
     ExpressionAttributeValues :=
       [ (":firstName", InS (js_or (prop user "firstName") (JStr "")));
         (":lastName", InS (js_or (prop user "lastName") (JStr "")));
         (":dob", InS (js_or (prop user "dob") (JStr "")));
         (":updatedAt", InS (JStr updatedAt));
         (":status", InS (JStr "updated")) ];
     ExpressionAttributeNames :=
       [ ("#firstName", "firstName"); ("#lastName", "lastName");
         ("#dob", "dob"); ("#updatedAt", "updatedAt");
         ("#status", "status") ];
     ConditionExpression := attribute_exists "id" |}.

(** The [UpdateItemCommandInput] of the [updateStatus] branch, lines
    173-191. *)
Definition update_status_input (user : json) (updatedAt : string) (key : Item)
  : UpdateItemInput :=
  {| Key := key;
     UpdateExpression :=
       [ ("#status", ":status"); ("updatedAt", ":updatedAt") ];
     ExpressionAttributeValues :=
       [ (":status", InS (js_or (prop user "status") (JStr "")));
         (":updatedAt", InS (JStr updatedAt)) ];
     ExpressionAttributeNames := [ ("#status", "status") ];
     ConditionExpression := attribute_exists "id" |}.

Definition marshall_error : Exn :=
  JsError "Number is outside the safe integer range. Use BigInt.".

Section Service.

Variable env : Env.

Definition uuidv4 : M string :=
  fun w => (Ok (uuid_at env (uuid_calls w)), set_uuid_calls (S (uuid_calls w)) w).

Definition new_Date_toISOString : M string :=
  fun w => (Ok (iso_at env (date_calls w)), set_date_calls (S (date_calls w)) w).

(** Lines 98-203 of [handleUserEvent]: [params] is built for every
    operation, then the operation decides what is sent. *)
Definition dispatch (user : json) (operation : option json) : M unit :=
  id <- uuidv4 ;;
  createdAt <- new_Date_toISOString ;;
  updatedAt <- new_Date_toISOString ;;
  Item <- or_throw (marshall (new_user_fields user id createdAt updatedAt))
                   marshall_error ;;
  if strict_eq_str operation "create" then
    try_catch
      (dynamoDBClient_send (PutItemCommand Item) ;;
       logger LOG "User ${body.user.firstName} created successfully."
              (ArgVal (prop user "firstName")))
      (fun error =>
         logger ERROR "Error creating user in DynamoDB" (ArgExn error))
  else if strict_eq_str operation "update" then
    throw_if (negb (truthy (prop user "id")))
             (JsError "Correct ID required for update operation") ;;
    now <- new_Date_toISOString ;;
    key <- or_throw (marshall [("id", prop user "id")]) marshall_error ;;
    try_catch
      (dynamoDBClient_send (UpdateItemCommand (update_input user now key)) ;;
       logger LOG "User ${user.id} updated successfully."
              (ArgVal (prop user "id")))
      (fun error =>
         logger ERROR "Error updating user in DynamoDB" (ArgExn error) ;;
         throw (BadRequestException "Failed to update user"))
  else if strict_eq_str operation "updateStatus" then
    throw_if (negb (truthy (prop user "id")))
             (BadRequestException "ID required for status update operation") ;;
    now <- new_Date_toISOString ;;
    key <- or_throw (marshall [("id", prop user "id")]) marshall_error ;;
    try_catch
      (dynamoDBClient_send (UpdateItemCommand (update_status_input user now key)) ;;
       logger LOG "User ${user.id} status updated successfully."
              (ArgVal (prop user "id")))
      (fun error =>
         logger ERROR "Error updating user in DynamoDB" (ArgExn error) ;;
         throw (BadRequestException "Failed to update user"))
  else
    logger WARN "Unknown operation: ${operation}" (ArgVal operation).

(** The body of the outer [try] of [handleUserEvent]: lines 85-96, then
    [dispatch]. *)
Definition handleUserEvent_try (message : Message) : M unit :=
  throw_if (falsy_str (Body message)) (JsError "Message body is missing") ;;
  body <- or_throw (JSON_parse env (default "" (Body message))) SyntaxError ;;
  (* [body.user] on [null] is a TypeError *)
  throw_if (match body with JNull => true | _ => false end) TypeError ;;
  throw_if (negb (truthy (prop body "user"))
            || negb (truthy (prop body "operation")))
           (JsError "Invalid message structure") ;;
  user <- or_throw (prop body "user") (JsError "Invalid message structure") ;;
  dispatch user (prop body "operation").

Definition handleUserEvent (message : Message) : M unit :=
  try_catch (handleUserEvent_try message)
    (fun error => logger ERROR "Error handling SQS message:" (ArgExn error)).

(** The body of the [for] loop of [pollQueue], lines 58-67. *)
Definition process_message (message : Message) : M unit :=
  logger LOG "${message.Body}" (ArgStr (Body message)) ;;
  handleUserEvent message ;;
  sqsClient_delete (ReceiptHandle message).

Definition pollQueue : M unit :=
  try_catch
    (Messages <- sqsClient_receive 10 20 ;;
     match Messages with
     | Some (m :: ms) =>
         for_of (m :: ms) process_message ;;
         call_pollQueue
     | _ =>
         logger LOG "Queue is empty, waiting before next poll..." NoArg ;;
         setTimeout_pollQueue pollingInterval
     end)
    (fun error =>
       logger ERROR "Error polling SQS queue:" (ArgExn error) ;;
       setTimeout_pollQueue pollingInterval).

Definition onModuleInit : M unit := pollQueue.

(** The runtime's event loop, [n] turns of it: each turn takes the
    oldest pending invocation of [pollQueue] and runs it; with nothing
    pending the service has stopped. *)
Fixpoint event_loop (n : nat) (w : World) : World :=
  match n with
  | O => w
  | S n' =>
      match timers w with
      | [] => w
      | _ :: r => event_loop n' (snd (pollQueue (set_timers r w)))
      end
  end.

(** [a.S] for [a = item.k]: a TypeError ([None]) when the attribute is
    absent, [undefined] when it is not a string attribute. *)
Definition attr_S (it : Item) (k : string) : option (option string) :=
  match it !! k with
  | None => None
  | Some (AV_S s) => Some (Some s)
  | Some _ => Some None
  end.

Definition lookup_failed : Exn :=
  BadRequestException "Failed to check user status".

Definition getUserStatus (email dob : option string)
  : M (option string * option string) :=
  throw_if (falsy_str email || falsy_str dob)
    (BadRequestException "Both email and date of birth must be provided.") ;;
  try_catch
    (Items <- dynamoDBClient_send
       (QueryCommand
          {| IndexName := Some "email-dob-index";
             KeyConditionExpression := [("email", ":email"); ("dob", ":dob")];
             QueryValues := [ (":email", InS (JStr (default "" email)));
                              (":dob", InS (JStr (default "" dob))) ] |}) ;;
     match Items with
     | Some (user :: _) =>
         id <- or_throw (attr_S user "id") TypeError ;;
         status <- or_throw (attr_S user "status") TypeError ;;
         ret (id, status)
     | _ => throw (BadRequestException "User not found")
     end)
    (fun error =>
       logger ERROR "Error checking user status:" (ArgExn error) ;;
       throw lookup_failed).

(** The [console.log] of line 261 is left out: it is no part of the
    logger nor of the result. *)
Definition getEntireUserDetails (id : option string) : M Item :=
  throw_if (falsy_str id)
    (BadRequestException "Both email and date of birth must be provided.") ;;
  try_catch
    (Items <- dynamoDBClient_send
       (QueryCommand
          {| IndexName := None;
             KeyConditionExpression := [("id", ":id")];
             QueryValues := [ (":id", InS (JStr (default "" id))) ] |}) ;;
     match Items with
     | Some (user :: _) => ret user
     | _ => throw (BadRequestException "User not found")
     end)
    (fun error =>
       logger ERROR "Error checking user status:" (ArgExn error) ;;
       throw lookup_failed).

End Service.

(** ** Reading a message

    [parse_event] is what lines 85-96 let through: the [user] and the
    [operation] of a message with a non-empty body that parses to a
    value with a truthy [user] and a truthy [operation]. *)
Definition parse_event (env : Env) (m : Message) : option (json * option json) :=
  match Body m with
  | Some s =>
      if String.eqb s "" then None
      else
        match JSON_parse env s with
        | Some body =>
            match prop body "user" with
            | Some user =>
                if truthy (Some user) && truthy (prop body "operation")
                then Some (user, prop body "operation")
                else None
            | None => None
            end
        | None => None
        end
  | None => None
  end.

(** The malformed messages: no body, a body that is not JSON, a parsed
    body without a (truthy) [user] or without a (truthy) [operation], an
    [update] or [updateStatus] without a (truthy) [user.id]. *)
Inductive Malformed (env : Env) (m : Message) : Prop :=
| no_body :
    falsy_str (Body m) = true -> Malformed env m
| not_json s :
    Body m = Some s -> JSON_parse env s = None -> Malformed env m
| no_user_or_operation s body :
    Body m = Some s -> JSON_parse env s = Some body ->
    truthy (prop body "user") && truthy (prop body "operation") = false ->
    Malformed env m
| no_id user op :
    parse_event env m = Some (user, Some (JStr op)) ->
    op = "update" \/ op = "updateStatus" ->
    truthy (prop user "id") = false ->
    Malformed env m.

(** The record an [update] or [updateStatus] of [user] is aimed at. *)
Definition target_record (t : gmap string Item) (user : json) : option Item :=
  match prop user "id" with
  | Some (JStr k) => t !! k
  | _ => None
  end.

Definition as_string (v : json) : option string :=
  match v with
  | JStr s => Some s
  | _ => None
  end.

(** The next store request is not failed by the service itself. *)
Definition store_up (w : World) : bool :=
  match ddb_faults w with
  | true :: _ => false
  | _ => true
  end.

(** The queue side of the world, which the dispatcher never touches. *)
Definition sqs_view (w : World)
  : list RecvOutcome * list bool * list SqsCommand * list Schedule :=
  (sqs_inbox w, sqs_delete_faults w, sqs_sent w, timers w).

Definition keeps_sqs {A : Type} (m : M A) : Prop :=
  forall w, sqs_view (snd (m w)) = sqs_view w.

Definition is_receive (c : SqsCommand) : bool :=
  match c with
  | ReceiveMessageCommand _ _ => true
  | DeleteMessageCommand _ => false
  end.

(** The receive calls made so far. *)
Definition receives (w : World) : list SqsCommand :=
  List.filter is_receive (sqs_sent w).

(** One of the next [n] delete requests fails. *)
Definition any_fault (n : nat) (faults : list bool) : bool :=
  existsb (fun b : bool => b) (take n faults).

(** How [pollQueue] re-schedules itself in [w]: at once after a
    non-empty batch all of whose deletes went through, after
    [pollingInterval] otherwise. *)
Definition next_schedule (w : World) : Schedule :=
  match sqs_inbox w with
  | RecvResponse (Some (m :: ms)) :: _ =>
      if any_fault (length (take 10 (m :: ms))) (sqs_delete_faults w)
      then After pollingInterval
      else Immediately
  | _ => After pollingInterval
  end.

(** ** A concrete environment

    Message bodies are written with ['] for the JSON quote. *)

Definition body_create_john : string :=
  "{'user':{'firstName':'John','lastName':'Doe','email':'john@x.com','dob':'2000-01-01'},'operation':'create'}".
Definition body_create_blank_status : string :=
  "{'user':{'firstName':'Ann','status':''},'operation':'create'}".
Definition body_update_abc : string :=
  "{'user':{'id':'abc','firstName':'Jane'},'operation':'update'}".
Definition body_update_missing : string :=
  "{'user':{'id':'missing-id'},'operation':'update'}".
Definition body_update_no_id : string :=
  "{'user':{'firstName':'Jane','lastName':'Doe','dob':'1990-01-01'},'operation':'update'}".
Definition body_status_abc : string :=
  "{'user':{'id':'abc','status':'suspended'},'operation':'updateStatus'}".
Definition body_status_abc_blank : string :=
  "{'user':{'id':'abc'},'operation':'updateStatus'}".
Definition body_empty_object : string := "{}".

Definition user_john : json :=
  JObj [("firstName", JStr "John"); ("lastName", JStr "Doe");
        ("email", JStr "john@x.com"); ("dob", JStr "2000-01-01")].
Definition user_blank_status : json :=
  JObj [("firstName", JStr "Ann"); ("status", JStr "")].
Definition user_update_abc : json :=
  JObj [("id", JStr "abc"); ("firstName", JStr "Jane")].
Definition user_update_missing : json := JObj [("id", JStr "missing-id")].
Definition user_update_no_id : json :=
  JObj [("firstName", JStr "Jane"); ("lastName", JStr "Doe");
        ("dob", JStr "1990-01-01")].
Definition user_status_abc : json :=
  JObj [("id", JStr "abc"); ("status", JStr "suspended")].
Definition user_status_abc_blank : json := JObj [("id", JStr "abc")].

Definition event (user : json) (operation : string) : json :=
  JObj [("user", user); ("operation", JStr operation)].

Definition demo_bodies : list (string * json) :=
  [ (body_create_john, event user_john "create");
    (body_create_blank_status, event user_blank_status "create");
    (body_update_abc, event user_update_abc "update");
    (body_update_missing, event user_update_missing "update");
    (body_update_no_id, event user_update_no_id "update");
    (body_status_abc, event user_status_abc "updateStatus");
    (body_status_abc_blank, event user_status_abc_blank "updateStatus");
    (body_empty_object, JObj []) ].

(** A clock that advances by one millisecond at every reading. *)
Definition demo_iso (n : nat) : string :=
  match n with
  | O => "2024-05-01T10:00:00.000Z"
  | S O => "2024-05-01T10:00:00.001Z"
  | S (S O) => "2024-05-01T10:00:00.002Z"
  | _ => "2024-05-01T10:00:00.003Z"
  end.

Definition demo_uuid (n : nat) : string :=
  match n with
  | O => "0b7e6a7e-0000-4000-8000-000000000000"
  | _ => "0b7e6a7e-0000-4000-8000-000000000001"
  end.

Definition demo_env : Env :=
  {| JSON_parse := fun s => assoc s demo_bodies;
     uuid_at := demo_uuid;
     iso_at := demo_iso |}.

Definition record_abc : Item :=
  <["id" := AV_S "abc"]>
  (<["firstName" := AV_S "Janet"]>
  (<["lastName" := AV_S "Roe"]>
  (<["email" := AV_S "jane@x.com"]>
  (<["dob" := AV_S "1990-01-01"]>
  (<["status" := AV_S "active"]>
  (<["createdAt" := AV_S "2024-01-01T00:00:00.000Z"]>
  (<["updatedAt" := AV_S "2024-01-01T00:00:00.000Z"]> ∅))))))).

Definition empty_world : World :=
  {| table := ∅; ddb_sent := []; ddb_faults := []; sqs_inbox := [];
     sqs_delete_faults := []; sqs_sent := []; uuid_calls := 0;
     date_calls := 0; logs := []; timers := [] |}.

Definition world_abc : World :=
  set_table (<["abc" := record_abc]> ∅) empty_world.

Definition msg (body : string) : Message :=
  {| Body := Some body; ReceiptHandle := Some "rh-1" |}.

(** ** Vocabulary of the statements *)

(** The world once a command has been handed to the store client. *)
Definition sent (c : DdbCommand) (w : World) : World :=
  set_ddb_faults (tail (ddb_faults w)) (set_ddb_sent (ddb_sent w ++ [c]) w).

(** What the store answers to [c] in [w]. *)
Definition store_result (c : DdbCommand) (w : World)
  : string + (gmap string Item * option (list Item)) :=
  if store_up w then ddb_exec c (table w) else inl "ServiceUnavailable".

(** The world once [params] has been built: one identifier drawn, the
    clock read twice. *)
Definition params_world (w : World) : World :=
  set_date_calls (S (S (date_calls w))) (set_uuid_calls (S (uuid_calls w)) w).

(** [params.Item] as built in [w]. *)
Definition new_item (env : Env) (user : json) (w : World) : option Item :=
  marshall (new_user_fields user (uuid_at env (uuid_calls w))
              (iso_at env (date_calls w)) (iso_at env (S (date_calls w)))).

(** The clock reading of the [update] and [updateStatus] branches. *)
Definition update_time (env : Env) (w : World) : string :=
  iso_at env (S (S (date_calls w))).

Definition update_world (w : World) : World :=
  set_date_calls (S (S (S (date_calls w)))) (set_uuid_calls (S (uuid_calls w)) w).

Definition log_to (lv : Level) (msg : string) (a : LogArg) (w : World) : World :=
  set_logs (logs w ++ [mkLog lv msg a]) w.

(** The one command a dispatch sends to the store, if any. *)
Definition command_of (env : Env) (user : json) (op : option json) (w : World)
  : option DdbCommand :=
  match new_item env user w with
  | None => None
  | Some item =>
      if strict_eq_str op "create" then Some (PutItemCommand item)
      else if strict_eq_str op "update" then
        if truthy (prop user "id") then
          option_map
            (fun key => UpdateItemCommand (update_input user (update_time env w) key))
            (marshall [("id", prop user "id")])
        else None
      else if strict_eq_str op "updateStatus" then
        if truthy (prop user "id") then
          option_map
            (fun key => UpdateItemCommand (update_status_input user (update_time env w) key))
            (marshall [("id", prop user "id")])
        else None
      else None
  end.

(** The command a message makes the dispatcher send, if any. *)
Definition event_command (env : Env) (m : Message) (w : World)
  : option DdbCommand :=
  match parse_event env m with
  | Some (user, op) => command_of env user op w
  | None => None
  end.

(** Attribute [a] of the record under [k]. *)
Definition field (t : gmap string Item) (k a : string) : option AttributeValue :=
  match t !! k with
  | Some it => it !! a
  | None => None
  end.

(** The attributes a request assigns. *)
Definition assigned (inp : UpdateItemInput) : list (option string) :=
  map (fun act => resolve_name (ExpressionAttributeNames inp) (fst act))
      (UpdateExpression inp).

(** The record an accepted [update] leaves behind. *)
Definition updated_record (rec : Item) (fn ln d now : string) : Item :=
  <["status" := AV_S "updated"]>
  (<["updatedAt" := AV_S now]>
  (<["dob" := AV_S d]>
  (<["lastName" := AV_S ln]>
  (<["firstName" := AV_S fn]> rec)))).

(** The record an accepted [updateStatus] leaves behind. *)
Definition restatused_record (rec : Item) (st now : string) : Item :=
  <["updatedAt" := AV_S now]> (<["status" := AV_S st]> rec).

Definition update_fields : list string :=
  ["firstName"; "lastName"; "dob"; "updatedAt"; "status"].

Definition update_status_fields : list string := ["status"; "updatedAt"].

(** The hypotheses under which the store accepts the write of an
    [update] or [updateStatus] of the record [rec] under [k]: the id
    names it, [params] could be built, the store is up. *)
Definition reaches_record (env : Env) (user : json) (k : string) (rec : Item)
    (w : World) : Prop :=
  prop user "id" = Some (JStr k) /\ k <> ""
  /\ wf_table (table w) /\ table w !! k = Some rec
  /\ is_Some (new_item env user w) /\ store_up w = true.

(** The value of property [a] in an object literal, when defined. *)
Fixpoint defined_field (a : string) (fields : list (string * option json))
  : option json :=
  match fields with
  | [] => None
  | (k, None) :: r => defined_field a r
  | (k, Some v) :: r => if String.eqb a k then Some v else defined_field a r
  end.

Definition item_fields : list string :=
  ["id"; "firstName"; "lastName"; "email"; "dob"; "status"; "createdAt";
   "updatedAt"].

Definition payload_fields : list string :=
  ["firstName"; "lastName"; "email"; "dob"].

(** A payload whose fields are strings where present. *)
Definition string_or_absent (v : option json) : bool :=
  match v with
  | None => true
  | Some (JStr _) => true
  | Some _ => false
  end.

Definition valid_payload (user : json) : bool :=
  forallb (fun f => string_or_absent (prop user f))
          ["firstName"; "lastName"; "email"; "dob"; "status"].

Definition user_not_found : Exn := BadRequestException "User not found".

Definition is_delete (c : SqsCommand) : bool := negb (is_receive c).

(** The world once the receive request has been sent. *)
Definition received (w : World) : World :=
  set_sqs_inbox (tail (sqs_inbox w))
    (set_sqs_sent (sqs_sent w ++ [ReceiveMessageCommand 10 20]) w).

Definition schedule (d : Schedule) (w : World) : World :=
  set_timers (timers w ++ [d]) w.

Definition world_failing_delete : World :=
  set_sqs_delete_faults [true]
    (set_sqs_inbox [RecvResponse (Some [msg body_create_john])] empty_world).

(** ** ConsumerController (consumer.controller.ts)

    The two routes hand their query parameters to the service and return
    what it returns; a parameter missing from the query string is
    [undefined]. *)
Definition controller_getUserDetails (email dob : option string)
  : M (option string * option string) :=
  getUserStatus email dob.

Definition controller_getEntireUserDetails (id : option string) : M Item :=
  getEntireUserDetails id.

(** The two queries of the read operations, lines 216-224 and 249-255. *)
Definition status_query (email dob : string) : QueryInput :=
  {| IndexName := Some "email-dob-index";
     KeyConditionExpression := [("email", ":email"); ("dob", ":dob")];
     QueryValues := [ (":email", InS (JStr email)); (":dob", InS (JStr dob)) ] |}.

Definition details_query (id : string) : QueryInput :=
  {| IndexName := None;
     KeyConditionExpression := [("id", ":id")];
     QueryValues := [ (":id", InS (JStr id)) ] |}.

(** The record has the given [email] and [dob]. *)
Definition has_email_dob (email dob : string) (it : Item) : bool :=
  matches (QueryValues (status_query email dob))
          (KeyConditionExpression (status_query email dob)) it.

Definition invalid_input : Exn :=
  BadRequestException "Both email and date of birth must be provided.".

Definition is_query (c : DdbCommand) : bool :=
  match c with
  | QueryCommand _ => true
  | _ => false
  end.


(** What the outer [catch] of [handleUserEvent] leaves after [e]. *)
Definition caught (e : Exn) (w : World) : Result unit * World :=
  (Ok tt, log_to ERROR "Error handling SQS message:" (ArgExn e) w).

(** More message bodies: operations the dispatcher does not know, and
    the literal [null]. *)
Definition body_delete_abc : string :=
  "{'user':{'id':'abc'},'operation':'delete'}".
Definition body_Create_john : string :=
  "{'user':{'firstName':'John'},'operation':'Create'}".
Definition body_null : string := "null".

Definition more_bodies : list (string * json) :=
  [ (body_delete_abc, event (JObj [("id", JStr "abc")]) "delete");
    (body_Create_john, event (JObj [("firstName", JStr "John")]) "Create");
    (body_null, JNull) ].

Definition demo_env_more : Env :=
  {| JSON_parse := fun s => assoc s (demo_bodies ++ more_bodies);
     uuid_at := demo_uuid;
     iso_at := demo_iso |}.

Definition world_abc_down : World := set_ddb_faults [true] world_abc.

(** How many messages of a batch of [n] are dispatched: the loop stops
    after the first delete request that fails. *)
Fixpoint attempted (n : nat) (faults : list bool) : nat :=
  match n with
  | O => O
  | S n' =>
      match faults with
      | true :: _ => 1%nat
      | _ :: f => S (attempted n' f)
      | [] => S n'
      end
  end.

(** The messages handled one after the other, each in the world the
    previous one left. *)
Definition run_batch (env : Env) (msgs : list Message) (w : World) : World :=
  fold_left (fun w m => snd (process_message env m w)) msgs w.

Definition delete_of (m : Message) : SqsCommand :=
  DeleteMessageCommand (ReceiptHandle m).

Definition msg_with (body handle : string) : Message :=
  {| Body := Some body; ReceiptHandle := Some handle |}.

(** A batch of two, create then update, whose first delete fails. *)
Definition world_two_messages : World :=
  set_sqs_delete_faults [true]
    (set_sqs_inbox
       [RecvResponse (Some [msg_with body_create_john "rh-1";
                            msg_with body_update_abc "rh-2"])]
       world_abc).

(** The world left by [m] is one where the store answers again. *)
Definition then_store_up (env : Env) (m : Message) (w : World) : Prop :=
  store_up w = true /\ store_up (snd (handleUserEvent env m w)) = true.

Definition body_create_ann : string :=
  "{'user':{'firstName':'Ann','email':'ann@x.com','dob':'1985-05-05'},'operation':'create'}".
Definition user_ann : json :=
  JObj [("firstName", JStr "Ann"); ("email", JStr "ann@x.com");
        ("dob", JStr "1985-05-05")].

Definition demo_env_ann : Env :=
  {| JSON_parse := fun s =>
       assoc s ((body_create_ann, event user_ann "create") :: demo_bodies);
     uuid_at := demo_uuid;
     iso_at := demo_iso |}.

(** The queue delivered nothing: no response left, a response without
    [Messages], or an empty list. *)
Definition nothing_received (w : World) : bool :=
  match sqs_inbox w with
  | [] => true
  | RecvResponse None :: _ => true
  | RecvResponse (Some []) :: _ => true
  | _ => false
  end.

Definition poll_error : LogEntry :=
  mkLog ERROR "Error polling SQS queue:" (ArgExn SQSException).

(** ** Generic facts about the monad and the primitives *)

Lemma keeps_sqs_ret {A : Type} (a : A) : keeps_sqs (ret a).
Proof. intros w. reflexivity. Qed.

Lemma keeps_sqs_throw {A : Type} (e : Exn) : keeps_sqs (@throw A e).
Proof. intros w. reflexivity. Qed.

Lemma keeps_sqs_bind {A B : Type} (m : M A) (k : A -> M B) :
  keeps_sqs m -> (forall a, keeps_sqs (k a)) -> keeps_sqs (bind m k).
Proof.
  intros Hm Hk w. unfold bind. specialize (Hm w).
  destruct (m w) as [[a | e] w1]; simpl in *.
  - rewrite Hk. exact Hm.
  - exact Hm.
Qed.

Lemma keeps_sqs_try_catch {A : Type} (m : M A) (h : Exn -> M A) :
  keeps_sqs m -> (forall e, keeps_sqs (h e)) -> keeps_sqs (try_catch m h).
Proof.
  intros Hm Hh w. unfold try_catch. specialize (Hm w).
  destruct (m w) as [[a | e] w1]; simpl in *.
  - exact Hm.
  - rewrite Hh. exact Hm.
Qed.

Lemma keeps_sqs_throw_if (c : bool) (e : Exn) : keeps_sqs (throw_if c e).
Proof. destruct c; intros w; reflexivity. Qed.

Lemma keeps_sqs_or_throw {A : Type} (o : option A) (e : Exn) :
  keeps_sqs (or_throw o e).
Proof. destruct o; intros w; reflexivity. Qed.

Lemma keeps_sqs_logger lv msg a : keeps_sqs (logger lv msg a).
Proof. intros w. reflexivity. Qed.

Lemma keeps_sqs_uuidv4 env : keeps_sqs (uuidv4 env).
Proof. intros w. reflexivity. Qed.

Lemma keeps_sqs_new_Date env : keeps_sqs (new_Date_toISOString env).
Proof. intros w. reflexivity. Qed.

Lemma keeps_sqs_send c : keeps_sqs (dynamoDBClient_send c).
Proof.
  intros w. unfold dynamoDBClient_send.
  destruct (ddb_faults w) as [| [|] f]; try reflexivity;
    destruct (ddb_exec c (table w)) as [e | [t' items]]; reflexivity.
Qed.

Create HintDb keeps.
#[local] Hint Resolve keeps_sqs_ret keeps_sqs_throw keeps_sqs_throw_if
  keeps_sqs_or_throw keeps_sqs_logger keeps_sqs_uuidv4 keeps_sqs_new_Date
  keeps_sqs_send : keeps.

Ltac keeps_sqs_tac :=
  repeat first
    [ progress intros
    | apply keeps_sqs_bind
    | apply keeps_sqs_try_catch
    | solve [ auto with keeps ]
    | match goal with
      | |- keeps_sqs (if ?c then _ else _) => destruct c
      end ].

Lemma keeps_sqs_dispatch env user operation :
  keeps_sqs (dispatch env user operation).
Proof. unfold dispatch. keeps_sqs_tac. Qed.

Lemma keeps_sqs_handleUserEvent_try env m : keeps_sqs (handleUserEvent_try env m).
Proof.
  unfold handleUserEvent_try. keeps_sqs_tac.
Qed.

Lemma keeps_sqs_handleUserEvent env m : keeps_sqs (handleUserEvent env m).
Proof.
  unfold handleUserEvent. apply keeps_sqs_try_catch.
  - apply keeps_sqs_handleUserEvent_try.
  - intros e. apply keeps_sqs_logger.
Qed.

(** The outer [catch] returns normally whatever was thrown. *)
Lemma handleUserEvent_ok env m w : fst (handleUserEvent env m w) = Ok tt.
Proof.
  unfold handleUserEvent, try_catch.
  destruct (handleUserEvent_try env m w) as [[[] | e] w1]; reflexivity.
Qed.

Lemma handleUserEvent_logs_throw env m w e :
  fst (handleUserEvent_try env m w) = Throw e ->
  logs (snd (handleUserEvent env m w))
  = (logs (snd (handleUserEvent_try env m w))
     ++ [mkLog ERROR "Error handling SQS message:" (ArgExn e)])%list.
Proof.
  unfold handleUserEvent, try_catch.
  destruct (handleUserEvent_try env m w) as [[[] | e'] w1]; simpl;
    intros H; [discriminate | congruence].
Qed.

Lemma handleUserEvent_try_event env m user operation w :
  parse_event env m = Some (user, operation) ->
  handleUserEvent_try env m w = dispatch env user operation w.
Proof.
  unfold parse_event, handleUserEvent_try.
  destruct (Body m) as [s |]; [| discriminate].
  destruct (String.eqb s "") eqn:Hs; [discriminate |].
  destruct (JSON_parse env s) as [body |] eqn:Hp; [| discriminate].
  destruct (prop body "user") as [u |] eqn:Hu; [| discriminate].
  destruct (truthy (Some u) && truthy (prop body "operation")) eqn:Ht;
    [| discriminate].
  intros Heq. injection Heq as <- <-.
  apply andb_true_iff in Ht as [Ht1 Ht2].
  unfold bind, throw_if, or_throw, ret, throw.
  cbn [default from_option id falsy_str]. rewrite Hs, Hp.
  destruct body; try discriminate Hu.
  rewrite Hu, Ht1, Ht2. reflexivity.
Qed.

(** A message that [parse_event] refuses throws before any effect. *)
Lemma handleUserEvent_try_refused env m w :
  parse_event env m = None ->
  exists e, handleUserEvent_try env m w = (Throw e, w).
Proof.
  unfold parse_event, handleUserEvent_try.
  unfold bind, throw_if, or_throw, ret, throw.
  destruct (Body m) as [s |]; cbn [default from_option id falsy_str].
  2:{ intros _. eexists. reflexivity. }
  destruct (String.eqb s ""); [intros _; eexists; reflexivity |].
  destruct (JSON_parse env s) as [body |]; [| intros _; eexists; reflexivity].
  destruct body; try (intros _; eexists; reflexivity).
  destruct (prop (JObj kvs) "user") as [u |];
    [| intros _; eexists; reflexivity].
  destruct (truthy (Some u)); cbn [andb negb orb];
    [| intros _; eexists; reflexivity].
  destruct (truthy (prop (JObj kvs) "operation")); cbn [negb];
    [discriminate | intros _; eexists; reflexivity].
Qed.

(** ** The dispatcher, branch by branch *)

Lemma send_spec c w :
  dynamoDBClient_send c w
  = match store_result c w with
    | inl name => (Throw (DynamoDBException name), sent c w)
    | inr (t', items) => (Ok items, set_table t' (sent c w))
    end.
Proof.
  unfold dynamoDBClient_send, store_result, store_up, sent.
  destruct (ddb_faults w) as [| [|] f]; reflexivity.
Qed.

Ltac run_monad :=
  unfold bind, try_catch, throw_if, or_throw, ret, throw, uuidv4,
    new_Date_toISOString, logger;
  cbn [fst snd negb].

(** The store's answer only depends on the table and the pending
    faults, which building [params] leaves alone. *)
Ltac same_store_result c w :=
  match goal with
  | |- context [store_result ?c' ?w'] =>
      change (store_result c' w') with (store_result c w)
  end.

Lemma dispatch_marshall_fails env user op w :
  new_item env user w = None ->
  dispatch env user op w = (Throw marshall_error, params_world w).
Proof.
  unfold new_item, dispatch. run_monad.
  cbn [uuid_calls date_calls set_uuid_calls set_date_calls].
  intros ->. reflexivity.
Qed.

Lemma dispatch_create env user op item w :
  strict_eq_str op "create" = true ->
  new_item env user w = Some item ->
  dispatch env user op w
  = match store_result (PutItemCommand item) w with
    | inl name =>
        (Ok tt,
         log_to ERROR "Error creating user in DynamoDB"
           (ArgExn (DynamoDBException name))
           (sent (PutItemCommand item) (params_world w)))
    | inr (t', _) =>
        (Ok tt,
         log_to LOG "User ${body.user.firstName} created successfully."
           (ArgVal (prop user "firstName"))
           (set_table t' (sent (PutItemCommand item) (params_world w))))
    end.
Proof.
  unfold new_item, dispatch. intros Hop Hit. run_monad.
  cbn [uuid_calls date_calls set_uuid_calls set_date_calls].
  rewrite Hit, Hop. rewrite send_spec.
  same_store_result (PutItemCommand item) w.
  destruct (store_result (PutItemCommand item) w) as [name | [t' items]];
    reflexivity.
Qed.

(** The two updating branches differ by the input they build, by the
    exception of a missing id and by the success message. *)
Lemma dispatch_update env user op item key w :
  op = Some (JStr "update") ->
  new_item env user w = Some item ->
  truthy (prop user "id") = true ->
  marshall [("id", prop user "id")] = Some key ->
  let c := UpdateItemCommand (update_input user (update_time env w) key) in
  dispatch env user op w
  = match store_result c w with
    | inl name =>
        (Throw (BadRequestException "Failed to update user"),
         log_to ERROR "Error updating user in DynamoDB"
           (ArgExn (DynamoDBException name)) (sent c (update_world w)))
    | inr (t', _) =>
        (Ok tt,
         log_to LOG "User ${user.id} updated successfully."
           (ArgVal (prop user "id")) (set_table t' (sent c (update_world w))))
    end.
Proof.
  intros -> Hit Hid Hkey c. unfold new_item in Hit. unfold dispatch. run_monad.
  cbn [uuid_calls date_calls set_uuid_calls set_date_calls].
  rewrite Hit. cbn [strict_eq_str]. 
  replace (String.eqb "update" "create") with false by reflexivity.
  replace (String.eqb "update" "update") with true by reflexivity.
  rewrite Hid, Hkey. cbn [negb]. rewrite send_spec.
  same_store_result c w.
  destruct (store_result c w) as [name | [t' items]]; reflexivity.
Qed.

Lemma dispatch_updateStatus env user op item key w :
  op = Some (JStr "updateStatus") ->
  new_item env user w = Some item ->
  truthy (prop user "id") = true ->
  marshall [("id", prop user "id")] = Some key ->
  let c := UpdateItemCommand (update_status_input user (update_time env w) key) in
  dispatch env user op w
  = match store_result c w with
    | inl name =>
        (Throw (BadRequestException "Failed to update user"),
         log_to ERROR "Error updating user in DynamoDB"
           (ArgExn (DynamoDBException name)) (sent c (update_world w)))
    | inr (t', _) =>
        (Ok tt,
         log_to LOG "User ${user.id} status updated successfully."
           (ArgVal (prop user "id")) (set_table t' (sent c (update_world w))))
    end.
Proof.
  intros -> Hit Hid Hkey c. unfold new_item in Hit. unfold dispatch. run_monad.
  cbn [uuid_calls date_calls set_uuid_calls set_date_calls].
  rewrite Hit. cbn [strict_eq_str].
  replace (String.eqb "updateStatus" "create") with false by reflexivity.
  replace (String.eqb "updateStatus" "update") with false by reflexivity.
  replace (String.eqb "updateStatus" "updateStatus") with true by reflexivity.
  rewrite Hid, Hkey. cbn [negb]. rewrite send_spec.
  same_store_result c w.
  destruct (store_result c w) as [name | [t' items]]; reflexivity.
Qed.

(** An [update] or [updateStatus] that does not reach the store throws
    and leaves the store side of the world alone. *)
Lemma dispatch_update_not_sent env user op name item w :
  op = Some (JStr name) -> name = "update" \/ name = "updateStatus" ->
  new_item env user w = Some item ->
  truthy (prop user "id") = false \/ marshall [("id", prop user "id")] = None ->
  exists e w', dispatch env user op w = (Throw e, w')
    /\ table w' = table w /\ ddb_sent w' = ddb_sent w
    /\ ddb_faults w' = ddb_faults w /\ logs w' = logs w.
Proof.
  unfold new_item, dispatch. intros -> Hname Hit Hbad. run_monad.
  cbn [uuid_calls date_calls set_uuid_calls set_date_calls].
  rewrite Hit. cbn [strict_eq_str].
  destruct Hname as [-> | ->].
  - replace (String.eqb "update" "create") with false by reflexivity.
    replace (String.eqb "update" "update") with true by reflexivity.
    destruct (truthy (prop user "id")); cbn [negb].
    + destruct Hbad as [Hbad | Hbad]; [discriminate |]. rewrite Hbad.
      do 2 eexists. split; [reflexivity |]. repeat split.
    + do 2 eexists. split; [reflexivity |]. repeat split.
  - replace (String.eqb "updateStatus" "create") with false by reflexivity.
    replace (String.eqb "updateStatus" "update") with false by reflexivity.
    replace (String.eqb "updateStatus" "updateStatus") with true by reflexivity.
    destruct (truthy (prop user "id")); cbn [negb].
    + destruct Hbad as [Hbad | Hbad]; [discriminate |]. rewrite Hbad.
      do 2 eexists. split; [reflexivity |]. repeat split.
    + do 2 eexists. split; [reflexivity |]. repeat split.
Qed.

Lemma strict_eq_str_true op lit :
  strict_eq_str op lit = true -> op = Some (JStr lit).
Proof.
  destruct op as [[| | | s | |] |]; cbn; try discriminate.
  intros H. apply String.eqb_eq in H. congruence.
Qed.

Lemma dispatch_unknown env user op item w :
  strict_eq_str op "create" = false ->
  strict_eq_str op "update" = false ->
  strict_eq_str op "updateStatus" = false ->
  new_item env user w = Some item ->
  dispatch env user op w
  = (Ok tt, log_to WARN "Unknown operation: ${operation}" (ArgVal op)
              (params_world w)).
Proof.
  intros H1 H2 H3 Hit. unfold new_item in Hit. unfold dispatch. run_monad.
  cbn [uuid_calls date_calls set_uuid_calls set_date_calls].
  rewrite Hit, H1, H2, H3. reflexivity.
Qed.

(** What a dispatch does to the store side of the world. *)
Lemma dispatch_effect env user op w :
  let w' := snd (dispatch env user op w) in
  match command_of env user op w with
  | None =>
      table w' = table w /\ ddb_sent w' = ddb_sent w
      /\ ddb_faults w' = ddb_faults w
  | Some c =>
      ddb_sent w' = (ddb_sent w ++ [c])%list
      /\ ddb_faults w' = tail (ddb_faults w)
      /\ match store_result c w with
         | inl name =>
             table w' = table w
             /\ exists txt,
                 last (logs w') = Some (mkLog ERROR txt (ArgExn (DynamoDBException name)))
         | inr (t', _) => table w' = t'
         end
  end.
Proof.
  unfold command_of.
  destruct (new_item env user w) as [item |] eqn:Hit.
  2:{ rewrite (dispatch_marshall_fails _ _ _ _ Hit). repeat split. }
  destruct (strict_eq_str op "create") eqn:H1.
  { rewrite (dispatch_create _ _ _ _ _ H1 Hit).
    destruct (store_result (PutItemCommand item) w) as [name | [t' items]];
      cbn [fst snd]; repeat split; try reflexivity.
    eexists. apply last_snoc. }
  destruct (strict_eq_str op "update") eqn:H2.
  { apply strict_eq_str_true in H2.
    destruct (truthy (prop user "id")) eqn:Hid.
    - destruct (marshall [("id", prop user "id")]) as [key |] eqn:Hkey;
        cbn [option_map].
      + pose proof (dispatch_update _ _ _ _ _ _ H2 Hit Hid Hkey) as Hd.
        cbv zeta in Hd. rewrite Hd.
        destruct (store_result _ w) as [name | [t' items]];
          cbn [fst snd]; repeat split; try reflexivity.
        eexists. apply last_snoc.
      + destruct (dispatch_update_not_sent env user op "update" item w H2
                    (or_introl eq_refl) Hit (or_intror Hkey))
          as (e & w' & -> & Ht & Hs & Hf & Hl).
        cbn [fst snd]. repeat split; assumption.
    - destruct (dispatch_update_not_sent env user op "update" item w H2
                  (or_introl eq_refl) Hit (or_introl Hid))
        as (e & w' & -> & Ht & Hs & Hf & Hl).
      cbn [fst snd]. repeat split; assumption. }
  destruct (strict_eq_str op "updateStatus") eqn:H3.
  { apply strict_eq_str_true in H3.
    destruct (truthy (prop user "id")) eqn:Hid.
    - destruct (marshall [("id", prop user "id")]) as [key |] eqn:Hkey;
        cbn [option_map].
      + pose proof (dispatch_updateStatus _ _ _ _ _ _ H3 Hit Hid Hkey) as Hd.
        cbv zeta in Hd. rewrite Hd.
        destruct (store_result _ w) as [name | [t' items]];
          cbn [fst snd]; repeat split; try reflexivity.
        eexists. apply last_snoc.
      + destruct (dispatch_update_not_sent env user op "updateStatus" item w H3
                    (or_intror eq_refl) Hit (or_intror Hkey))
          as (e & w' & -> & Ht & Hs & Hf & Hl).
        cbn [fst snd]. repeat split; assumption.
    - destruct (dispatch_update_not_sent env user op "updateStatus" item w H3
                  (or_intror eq_refl) Hit (or_introl Hid))
        as (e & w' & -> & Ht & Hs & Hf & Hl).
      cbn [fst snd]. repeat split; assumption. }
  rewrite (dispatch_unknown _ _ _ _ _ H1 H2 H3 Hit). repeat split.
Qed.

(** ** The dispatcher as a whole *)

Lemma handleUserEvent_unfold env m w :
  handleUserEvent env m w
  = match handleUserEvent_try env m w with
    | (Ok a, w') => (Ok a, w')
    | (Throw e, w') =>
        (Ok tt, log_to ERROR "Error handling SQS message:" (ArgExn e) w')
    end.
Proof. reflexivity. Qed.

Lemma handleUserEvent_effect env m w :
  let w' := snd (handleUserEvent env m w) in
  match event_command env m w with
  | None =>
      table w' = table w /\ ddb_sent w' = ddb_sent w
      /\ ddb_faults w' = ddb_faults w
  | Some c =>
      ddb_sent w' = (ddb_sent w ++ [c])%list
      /\ ddb_faults w' = tail (ddb_faults w)
      /\ match store_result c w with
         | inl name =>
             table w' = table w
             /\ exists txt,
                 In (mkLog ERROR txt (ArgExn (DynamoDBException name))) (logs w')
         | inr (t', _) => table w' = t'
         end
  end.
Proof.
  unfold event_command. rewrite handleUserEvent_unfold.
  destruct (parse_event env m) as [[user op] |] eqn:Hp.
  - rewrite (handleUserEvent_try_event _ _ _ _ w Hp).
    pose proof (dispatch_effect env user op w) as He. cbv zeta in He.
    destruct (dispatch env user op w) as [[[] | e] w1]; cbn [fst snd] in *.
    + destruct (command_of env user op w) as [c |]; [| exact He].
      destruct He as (Hs & Hf & Ht). repeat split; try assumption.
      destruct (store_result c w) as [name | [t' items]]; [| exact Ht].
      destruct Ht as [Ht [txt Hl]]. split; [exact Ht |].
      exists txt. apply last_Some in Hl as [l' ->].
      apply in_or_app. right. left. reflexivity.
    + destruct (command_of env user op w) as [c |]; [| exact He].
      destruct He as (Hs & Hf & Ht). repeat split; try assumption.
      destruct (store_result c w) as [name | [t' items]]; [| exact Ht].
      destruct Ht as [Ht [txt Hl]]. split; [exact Ht |].
      exists txt. apply last_Some in Hl as [l' Hl'].
      cbn [logs log_to set_logs]. rewrite Hl'.
      apply in_or_app. left. apply in_or_app. right. left. reflexivity.
  - destruct (handleUserEvent_try_refused env m w Hp) as [e ->].
    repeat split.
Qed.

Lemma Malformed_refused env m :
  falsy_str (Body m) = true
  \/ (exists s, Body m = Some s /\ JSON_parse env s = None)
  \/ (exists s body, Body m = Some s /\ JSON_parse env s = Some body
        /\ truthy (prop body "user") && truthy (prop body "operation") = false) ->
  parse_event env m = None.
Proof.
  unfold parse_event.
  intros [H | [(s & Hb & Hj) | (s & body & Hb & Hj & Ht)]].
  - destruct (Body m) as [s |]; [| reflexivity].
    cbn [falsy_str] in H. rewrite H. reflexivity.
  - rewrite Hb, Hj. destruct (String.eqb s ""); reflexivity.
  - rewrite Hb, Hj. destruct (String.eqb s ""); [reflexivity |].
    destruct (prop body "user") as [u |]; [| reflexivity].
    rewrite Ht. reflexivity.
Qed.

(** A malformed message throws inside the [try] before anything is sent
    or logged. *)
Lemma Malformed_throws env m w :
  Malformed env m ->
  exists e w', handleUserEvent_try env m w = (Throw e, w')
    /\ table w' = table w /\ ddb_sent w' = ddb_sent w
    /\ ddb_faults w' = ddb_faults w /\ logs w' = logs w.
Proof.
  intros [H | s Hb Hj | s body Hb Hj Ht | user op Hp Hop Hid].
  - destruct (handleUserEvent_try_refused env m w
                (Malformed_refused env m (or_introl H))) as [e ->].
    exists e, w. repeat split.
  - destruct (handleUserEvent_try_refused env m w
                (Malformed_refused env m
                   (or_intror (or_introl (ex_intro _ s (conj Hb Hj))))))
      as [e ->].
    exists e, w. repeat split.
  - destruct (handleUserEvent_try_refused env m w
                (Malformed_refused env m
                   (or_intror (or_intror
                      (ex_intro _ s (ex_intro _ body (conj Hb (conj Hj Ht))))))))
      as [e ->].
    exists e, w. repeat split.
  - rewrite (handleUserEvent_try_event _ _ _ _ w Hp).
    destruct (new_item env user w) as [item |] eqn:Hit.
    + exact (dispatch_update_not_sent env user _ op item w eq_refl Hop Hit
               (or_introl Hid)).
    + rewrite (dispatch_marshall_fails _ _ _ _ Hit).
      do 2 eexists. split; [reflexivity |]. repeat split.
Qed.

(** ** The consume loop's treatment of one message *)

Lemma process_message_unfold env m w :
  process_message env m w
  = sqsClient_delete (ReceiptHandle m)
      (snd (handleUserEvent env m
              (log_to LOG "${message.Body}" (ArgStr (Body m)) w))).
Proof.
  unfold process_message, bind, logger. cbn [fst snd].
  fold (log_to LOG "${message.Body}" (ArgStr (Body m)) w).
  pose proof (handleUserEvent_ok env m
                (log_to LOG "${message.Body}" (ArgStr (Body m)) w)) as Hok.
  destruct (handleUserEvent env m _) as [[[] | e] w1]; cbn in Hok;
    [reflexivity | discriminate].
Qed.

Lemma sqsClient_delete_sent h w :
  sqs_sent (snd (sqsClient_delete h w))
  = (sqs_sent w ++ [DeleteMessageCommand h])%list.
Proof.
  unfold sqsClient_delete.
  destruct (sqs_delete_faults w) as [| [|] f]; reflexivity.
Qed.

(** ** Errors stay inside the dispatcher *)

(** C2: for every message the consume loop hands to the dispatcher, in
    every world, [handleUserEvent] returns normally: an exception thrown
    inside it (missing body, bad JSON, missing fields, a failed update)
    is logged by the outer [catch] as "Error handling SQS message:", and
    a store request that fails is logged at level ERROR.  The loop then
    sends the [DeleteMessageCommand] of the message's receipt handle,
    whatever the dispatch did. *)
Theorem dispatcher_swallows_errors_then_delete env m w :
  let w0 := log_to LOG "${message.Body}" (ArgStr (Body m)) w in
  let w1 := snd (handleUserEvent env m w0) in
  fst (handleUserEvent env m w0) = Ok tt
  /\ (forall e, fst (handleUserEvent_try env m w0) = Throw e ->
        last (logs w1)
        = Some (mkLog ERROR "Error handling SQS message:" (ArgExn e)))
  /\ (forall c name,
        event_command env m w0 = Some c -> store_result c w0 = inl name ->
        exists txt,
          In (mkLog ERROR txt (ArgExn (DynamoDBException name))) (logs w1))
  /\ process_message env m w = sqsClient_delete (ReceiptHandle m) w1
  /\ sqs_sent (snd (process_message env m w))
     = (sqs_sent w ++ [DeleteMessageCommand (ReceiptHandle m)])%list.
Proof.
  intros w0 w1. split; [apply handleUserEvent_ok |].
  split.
  { intros e He. subst w1.
    rewrite (handleUserEvent_logs_throw env m w0 e He). apply last_snoc. }
  split.
  { intros c name Hc Hs.
    pose proof (handleUserEvent_effect env m w0) as He. cbv zeta in He.
    rewrite Hc in He. destruct He as (_ & _ & He). rewrite Hs in He.
    exact (proj2 He). }
  split; [apply process_message_unfold |].
  rewrite process_message_unfold, sqsClient_delete_sent.
  pose proof (keeps_sqs_handleUserEvent env m w0) as Hk.
  unfold sqs_view in Hk. injection Hk as _ _ Hs _.
  fold w0. rewrite Hs. reflexivity.
Qed.

(** C7: a malformed message (no body, a body that does not parse, a
    parsed body lacking [user] or [operation], and so one lacking both,
    or an [update]/[updateStatus] without [user.id]) makes the
    dispatcher send nothing to the store and leave the table as it was;
    the failure is logged by the outer [catch] and the dispatcher
    returns normally. *)
Theorem malformed_message_no_store_write env m w :
  Malformed env m ->
  let r := handleUserEvent env m w in
  fst r = Ok tt
  /\ ddb_sent (snd r) = ddb_sent w
  /\ table (snd r) = table w
  /\ exists e,
       logs (snd r)
       = (logs w ++ [mkLog ERROR "Error handling SQS message:" (ArgExn e)])%list.
Proof.
  intros Hm r. subst r. rewrite handleUserEvent_unfold.
  destruct (Malformed_throws env m w Hm) as (e & w' & -> & Ht & Hs & _ & Hl).
  cbn [fst snd log_to table ddb_sent logs set_logs].
  repeat split; try assumption.
  exists e. rewrite Hl. reflexivity.
Qed.

(** An [update] without [user.id], in a world holding a record. *)
Lemma malformed_message_no_store_write_witness :
  Malformed demo_env (msg body_update_no_id)
  /\ ddb_sent (snd (handleUserEvent demo_env (msg body_update_no_id) world_abc)) = []
  /\ table (snd (handleUserEvent demo_env (msg body_update_no_id) world_abc))
     = table world_abc.
Proof.
  assert (Hm : Malformed demo_env (msg body_update_no_id)).
  { eapply no_id; [reflexivity | left; reflexivity | reflexivity]. }
  split; [exact Hm |].
  destruct (malformed_message_no_store_write demo_env (msg body_update_no_id)
              world_abc Hm) as (_ & Hs & Ht & _).
  split; [exact Hs | exact Ht].
Defined.

(** ** Updates of a record that does not exist *)

Lemma convertToAttr_S v s : convertToAttr v = Some (AV_S s) -> v = JStr s.
Proof.
  destruct v; cbn [convertToAttr]; try discriminate.
  - destruct ((n >? MAX_SAFE_INTEGER) || (n <? - MAX_SAFE_INTEGER));
      discriminate.
  - congruence.
  - match goal with |- option_map _ ?x = _ -> _ => destruct x end;
      discriminate.
  - match goal with |- option_map _ ?x = _ -> _ => destruct x end;
      discriminate.
Qed.

(** The key built by [marshall({ id: user.id })] names the record
    [user.id] when that is a string, and no record otherwise. *)
Lemma marshalled_key user key k :
  marshall [("id", prop user "id")] = Some key ->
  key_of key = Some k ->
  prop user "id" = Some (JStr k).
Proof.
  cbn [marshall]. destruct (prop user "id") as [v |].
  - destruct (convertToAttr v) as [a |] eqn:Ha; [| discriminate].
    intros [= <-]. unfold key_of. rewrite lookup_insert_eq.
    destruct a; try discriminate. intros [= <-].
    apply convertToAttr_S in Ha. congruence.
  - intros [= <-]. unfold key_of. rewrite lookup_empty. discriminate.
Qed.

Lemma command_of_create env user w c :
  command_of env user (Some (JStr "create")) w = Some c ->
  exists item, new_item env user w = Some item /\ c = PutItemCommand item.
Proof.
  unfold command_of. destruct (new_item env user w) as [item |]; [| discriminate].
  cbn. intros [= <-]. eauto.
Qed.

Lemma command_of_update env user w c :
  command_of env user (Some (JStr "update")) w = Some c ->
  exists key, marshall [("id", prop user "id")] = Some key
    /\ truthy (prop user "id") = true
    /\ c = UpdateItemCommand (update_input user (update_time env w) key).
Proof.
  unfold command_of. destruct (new_item env user w) as [item |]; [| discriminate].
  cbn [strict_eq_str].
  replace (String.eqb "update" "create") with false by reflexivity.
  replace (String.eqb "update" "update") with true by reflexivity.
  destruct (truthy (prop user "id")); [| discriminate].
  destruct (marshall [("id", prop user "id")]) as [key |]; [| discriminate].
  cbn. intros [= <-]. eauto.
Qed.

Lemma command_of_updateStatus env user w c :
  command_of env user (Some (JStr "updateStatus")) w = Some c ->
  exists key, marshall [("id", prop user "id")] = Some key
    /\ truthy (prop user "id") = true
    /\ c = UpdateItemCommand (update_status_input user (update_time env w) key).
Proof.
  unfold command_of. destruct (new_item env user w) as [item |]; [| discriminate].
  cbn [strict_eq_str].
  replace (String.eqb "updateStatus" "create") with false by reflexivity.
  replace (String.eqb "updateStatus" "update") with false by reflexivity.
  replace (String.eqb "updateStatus" "updateStatus") with true by reflexivity.
  destruct (truthy (prop user "id")); [| discriminate].
  destruct (marshall [("id", prop user "id")]) as [key |]; [| discriminate].
  cbn. intros [= <-]. eauto.
Qed.

(** With no record under the key, a request guarded by
    [attribute_exists(id)] is refused. *)
Lemma ddb_update_absent inp t user :
  target_record t user = None ->
  marshall [("id", prop user "id")] = Some (Key inp) ->
  ConditionExpression inp = attribute_exists "id" ->
  exists e, ddb_update inp t = inl e.
Proof.
  intros Hnone Hkey Hcond. unfold ddb_update.
  destruct (negb (forallb well_typed (ExpressionAttributeValues inp)));
    [eauto |].
  destruct (key_of (Key inp)) as [k |] eqn:Hk; [| eauto].
  pose proof (marshalled_key user (Key inp) k Hkey Hk) as Hid.
  unfold target_record in Hnone. rewrite Hid in Hnone.
  rewrite Hnone, Hcond. cbn. eauto.
Qed.

Lemma store_result_update_absent inp w user :
  target_record (table w) user = None ->
  marshall [("id", prop user "id")] = Some (Key inp) ->
  ConditionExpression inp = attribute_exists "id" ->
  exists e, store_result (UpdateItemCommand inp) w = inl e.
Proof.
  intros Hnone Hkey Hcond. unfold store_result.
  destruct (store_up w); [| eauto]. cbn [ddb_exec].
  destruct (ddb_update_absent inp (table w) user Hnone Hkey Hcond) as [e ->].
  eauto.
Qed.

(** C3: an [update] or [updateStatus] aimed at an id under which the
    table holds no record leaves the table exactly as it was: nothing is
    created, nothing is modified.  Both requests carry the condition
    [attribute_exists(id)], the store refuses them, and when the request
    is otherwise in order the refusal is the failed condition. *)
Theorem update_of_absent_record_is_rejected env m user op w :
  parse_event env m = Some (user, Some (JStr op)) ->
  op = "update" \/ op = "updateStatus" ->
  target_record (table w) user = None ->
  table (snd (handleUserEvent env m w)) = table w
  /\ (forall now key,
        ConditionExpression (update_input user now key) = attribute_exists "id"
        /\ ConditionExpression (update_status_input user now key)
           = attribute_exists "id")
  /\ (forall now key,
        marshall [("id", prop user "id")] = Some key ->
        (exists e, ddb_update (update_input user now key) (table w) = inl e)
        /\ (exists e, ddb_update (update_status_input user now key) (table w) = inl e))
  /\ (forall now k,
        prop user "id" = Some (JStr k) ->
        (forallb well_typed (ExpressionAttributeValues
                               (update_input user now {["id" := AV_S k]})) = true ->
         ddb_update (update_input user now {["id" := AV_S k]}) (table w)
         = inl "ConditionalCheckFailedException")
        /\ (forallb well_typed (ExpressionAttributeValues
                                  (update_status_input user now {["id" := AV_S k]})) = true ->
            ddb_update (update_status_input user now {["id" := AV_S k]}) (table w)
            = inl "ConditionalCheckFailedException")).
Proof.
  intros Hp Hop Hnone. split.
  { pose proof (handleUserEvent_effect env m w) as He. cbv zeta in He.
    unfold event_command in He. rewrite Hp in He.
    destruct (command_of env user (Some (JStr op)) w) as [c |] eqn:Hc;
      [| exact (proj1 He)].
    destruct He as (_ & _ & He).
    assert (exists e, store_result c w = inl e) as [e Hs].
    { destruct Hop as [-> | ->].
      - apply command_of_update in Hc as (key & Hkey & _ & ->).
        apply (store_result_update_absent _ w user Hnone); [exact Hkey | reflexivity].
      - apply command_of_updateStatus in Hc as (key & Hkey & _ & ->).
        apply (store_result_update_absent _ w user Hnone); [exact Hkey | reflexivity]. }
    rewrite Hs in He. exact (proj1 He). }
  split; [intros now key; split; reflexivity |].
  split.
  { intros now key Hkey. split.
    - apply (ddb_update_absent _ (table w) user Hnone); [exact Hkey | reflexivity].
    - apply (ddb_update_absent _ (table w) user Hnone); [exact Hkey | reflexivity]. }
  intros now k Hid. unfold target_record in Hnone. rewrite Hid in Hnone.
  split; intros Hty; unfold ddb_update; rewrite Hty; cbn [negb];
    unfold key_of; cbn [Key update_input update_status_input];
    rewrite lookup_singleton_eq, Hnone; reflexivity.
Qed.

(** Example 3 of the specification: an [update] of [missing-id]. *)
Lemma update_of_absent_record_is_rejected_witness :
  parse_event demo_env (msg body_update_missing)
  = Some (user_update_missing, Some (JStr "update"))
  /\ target_record (table world_abc) user_update_missing = None
  /\ table (snd (handleUserEvent demo_env (msg body_update_missing) world_abc))
     = table world_abc.
Proof.
  split; [reflexivity |]. split; [reflexivity |].
  exact (proj1 (update_of_absent_record_is_rejected demo_env
                  (msg body_update_missing) user_update_missing
                  "update" world_abc eq_refl (or_introl eq_refl) eq_refl)).
Defined.

(** ** What an update changes *)

Lemma apply_set_frame names values acts it it' a :
  apply_set names values acts it = Some it' ->
  ~ In (Some a) (map (fun act => resolve_name names (fst act)) acts) ->
  it' !! a = it !! a.
Proof.
  revert it. induction acts as [| [path ph] r IH]; intros it; cbn [apply_set map].
  - intros [= <-] _. reflexivity.
  - destruct (resolve_name names path) as [b |] eqn:Hb; [| discriminate].
    destruct (assoc ph values) as [[[| | | s | |]] |]; try discriminate.
    destruct (String.eqb b "id"); [discriminate |].
    intros Happ Hnin. cbn [fst In] in Hnin.
    rewrite (IH _ Happ); [| tauto].
    apply lookup_insert_ne. intros ->. tauto.
Qed.

Lemma ddb_update_frame inp t t' :
  ddb_update inp t = inr t' ->
  (forall k, is_Some (t' !! k) <-> is_Some (t !! k))
  /\ (forall k a, ~ In (Some a) (assigned inp) -> field t' k a = field t k a).
Proof.
  unfold ddb_update.
  destruct (negb (forallb well_typed (ExpressionAttributeValues inp)));
    [discriminate |].
  destruct (key_of (Key inp)) as [k0 |]; [| discriminate].
  destruct (eval_condition (ConditionExpression inp) (t !! k0));
    [| discriminate].
  destruct (t !! k0) as [it |] eqn:Hit; [| discriminate].
  destruct (apply_set _ _ _ it) as [it' |] eqn:Happ; [| discriminate].
  intros [= <-]. split.
  - intros k. destruct (decide (k0 = k)) as [-> | Hne].
    + rewrite lookup_insert_eq, Hit. split; eauto.
    + rewrite lookup_insert_ne by exact Hne. reflexivity.
  - intros k a Hnin. unfold field. destruct (decide (k0 = k)) as [-> | Hne].
    + rewrite lookup_insert_eq, Hit. exact (apply_set_frame _ _ _ _ _ _ Happ Hnin).
    + rewrite lookup_insert_ne by exact Hne. reflexivity.
Qed.

Lemma as_string_eq v s : as_string v = Some s -> v = JStr s.
Proof. destruct v; cbn; congruence. Qed.

Lemma wf_table_has_id t k it :
  wf_table t -> t !! k = Some it -> is_Some (it !! "id").
Proof.
  intros Hwf Hk. specialize (Hwf k it Hk). unfold has_id in Hwf. cbn in Hwf.
  destruct (it !! "id"); [eauto | discriminate].
Qed.

Lemma ddb_update_update_input user now k rec fn ln d t :
  t !! k = Some rec -> is_Some (rec !! "id") ->
  as_string (js_or (prop user "firstName") (JStr "")) = Some fn ->
  as_string (js_or (prop user "lastName") (JStr "")) = Some ln ->
  as_string (js_or (prop user "dob") (JStr "")) = Some d ->
  ddb_update (update_input user now {["id" := AV_S k]}) t
  = inr (<[k := updated_record rec fn ln d now]> t).
Proof.
  intros Hk Hid Hfn Hln Hd.
  apply as_string_eq in Hfn, Hln, Hd.
  unfold ddb_update, update_input.
  cbn [ExpressionAttributeValues Key ConditionExpression UpdateExpression
       ExpressionAttributeNames].
  rewrite Hfn, Hln, Hd. cbn [forallb well_typed andb negb].
  unfold key_of. rewrite lookup_singleton_eq, Hk.
  cbn [eval_condition]. rewrite bool_decide_eq_true_2 by exact Hid.
  reflexivity.
Qed.

Lemma ddb_update_update_status_input user now k rec st t :
  t !! k = Some rec -> is_Some (rec !! "id") ->
  as_string (js_or (prop user "status") (JStr "")) = Some st ->
  ddb_update (update_status_input user now {["id" := AV_S k]}) t
  = inr (<[k := restatused_record rec st now]> t).
Proof.
  intros Hk Hid Hst. apply as_string_eq in Hst.
  unfold ddb_update, update_status_input.
  cbn [ExpressionAttributeValues Key ConditionExpression UpdateExpression
       ExpressionAttributeNames].
  rewrite Hst. cbn [forallb well_typed andb negb].
  unfold key_of. rewrite lookup_singleton_eq, Hk.
  cbn [eval_condition]. rewrite bool_decide_eq_true_2 by exact Hid.
  reflexivity.
Qed.

Lemma assigned_update_input user now key :
  assigned (update_input user now key) = map Some update_fields.
Proof. reflexivity. Qed.

Lemma assigned_update_status_input user now key :
  assigned (update_status_input user now key) = map Some update_status_fields.
Proof. reflexivity. Qed.

Lemma not_in_map_Some (a : string) (l : list string) :
  ~ In a l -> ~ In (Some a) (map Some l).
Proof.
  intros Hnin Hin. apply in_map_iff in Hin as (b & [= ->] & Hb). tauto.
Qed.

Lemma store_result_frame inp w t' items fields :
  assigned inp = map Some fields ->
  store_result (UpdateItemCommand inp) w = inr (t', items) ->
  (forall k, is_Some (t' !! k) <-> is_Some (table w !! k))
  /\ (forall k a, ~ In a fields -> field t' k a = field (table w) k a).
Proof.
  intros Has. unfold store_result. destruct (store_up w); [| discriminate].
  cbn [ddb_exec]. destruct (ddb_update inp (table w)) as [e | t''] eqn:Hu;
    [discriminate |].
  intros [= <- _]. destruct (ddb_update_frame inp (table w) t'' Hu) as [Hd Hf].
  split; [exact Hd |].
  intros k a Hnin. apply Hf. rewrite Has. apply not_in_map_Some, Hnin.
Qed.

(** Whatever an [update] does, it creates and removes no record and can
    only change the five attributes of its [SET] clause. *)
Lemma update_frame env m user w :
  parse_event env m = Some (user, Some (JStr "update")) ->
  let w' := snd (handleUserEvent env m w) in
  (forall k, is_Some (table w' !! k) <-> is_Some (table w !! k))
  /\ (forall k a, ~ In a update_fields ->
        field (table w') k a = field (table w) k a).
Proof.
  intros Hp w'. subst w'.
  pose proof (handleUserEvent_effect env m w) as He. cbv zeta in He.
  unfold event_command in He. rewrite Hp in He.
  destruct (command_of env user (Some (JStr "update")) w) as [c |] eqn:Hc.
  - apply command_of_update in Hc as (key & _ & _ & ->).
    destruct He as (_ & _ & He).
    destruct (store_result _ w) as [name | [t' items]] eqn:Hs.
    + destruct He as [-> _]. split; reflexivity.
    + rewrite He.
      exact (store_result_frame _ w t' items update_fields
               (assigned_update_input _ _ _) Hs).
  - destruct He as (-> & _). split; reflexivity.
Qed.

Lemma updateStatus_frame env m user w :
  parse_event env m = Some (user, Some (JStr "updateStatus")) ->
  let w' := snd (handleUserEvent env m w) in
  (forall k, is_Some (table w' !! k) <-> is_Some (table w !! k))
  /\ (forall k a, ~ In a update_status_fields ->
        field (table w') k a = field (table w) k a).
Proof.
  intros Hp w'. subst w'.
  pose proof (handleUserEvent_effect env m w) as He. cbv zeta in He.
  unfold event_command in He. rewrite Hp in He.
  destruct (command_of env user (Some (JStr "updateStatus")) w) as [c |] eqn:Hc.
  - apply command_of_updateStatus in Hc as (key & _ & _ & ->).
    destruct He as (_ & _ & He).
    destruct (store_result _ w) as [name | [t' items]] eqn:Hs.
    + destruct He as [-> _]. split; reflexivity.
    + rewrite He.
      exact (store_result_frame _ w t' items update_status_fields
               (assigned_update_status_input _ _ _) Hs).
  - destruct He as (-> & _). split; reflexivity.
Qed.

Lemma truthy_nonempty k : k <> "" -> truthy (Some (JStr k)) = true.
Proof.
  intros Hk. cbn. apply negb_true_iff. apply String.eqb_neq. exact Hk.
Qed.

Lemma update_accepted env m user k rec fn ln d w :
  parse_event env m = Some (user, Some (JStr "update")) ->
  reaches_record env user k rec w ->
  as_string (js_or (prop user "firstName") (JStr "")) = Some fn ->
  as_string (js_or (prop user "lastName") (JStr "")) = Some ln ->
  as_string (js_or (prop user "dob") (JStr "")) = Some d ->
  event_command env m w
  = Some (UpdateItemCommand
            (update_input user (update_time env w) {["id" := AV_S k]}))
  /\ table (snd (handleUserEvent env m w))
     = <[k := updated_record rec fn ln d (update_time env w)]> (table w).
Proof.
  intros Hp (Hid & Hk & Hwf & Hrec & [item Hit] & Hup) Hfn Hln Hd.
  assert (Hc : event_command env m w
               = Some (UpdateItemCommand
                         (update_input user (update_time env w) {["id" := AV_S k]}))).
  { unfold event_command. rewrite Hp. unfold command_of. rewrite Hit.
    cbn [strict_eq_str].
    replace (String.eqb "update" "create") with false by reflexivity.
    replace (String.eqb "update" "update") with true by reflexivity.
    rewrite Hid, (truthy_nonempty k Hk). reflexivity. }
  split; [exact Hc |].
  pose proof (handleUserEvent_effect env m w) as He. cbv zeta in He.
  rewrite Hc in He. destruct He as (_ & _ & He).
  unfold store_result in He. rewrite Hup in He. cbn [ddb_exec] in He.
  rewrite (ddb_update_update_input user _ k rec fn ln d (table w) Hrec
             (wf_table_has_id _ _ _ Hwf Hrec) Hfn Hln Hd) in He.
  exact He.
Qed.

Lemma updateStatus_accepted env m user k rec st w :
  parse_event env m = Some (user, Some (JStr "updateStatus")) ->
  reaches_record env user k rec w ->
  as_string (js_or (prop user "status") (JStr "")) = Some st ->
  event_command env m w
  = Some (UpdateItemCommand
            (update_status_input user (update_time env w) {["id" := AV_S k]}))
  /\ table (snd (handleUserEvent env m w))
     = <[k := restatused_record rec st (update_time env w)]> (table w).
Proof.
  intros Hp (Hid & Hk & Hwf & Hrec & [item Hit] & Hup) Hst.
  assert (Hc : event_command env m w
               = Some (UpdateItemCommand
                         (update_status_input user (update_time env w)
                            {["id" := AV_S k]}))).
  { unfold event_command. rewrite Hp. unfold command_of. rewrite Hit.
    cbn [strict_eq_str].
    replace (String.eqb "updateStatus" "create") with false by reflexivity.
    replace (String.eqb "updateStatus" "update") with false by reflexivity.
    replace (String.eqb "updateStatus" "updateStatus") with true by reflexivity.
    rewrite Hid, (truthy_nonempty k Hk). reflexivity. }
  split; [exact Hc |].
  pose proof (handleUserEvent_effect env m w) as He. cbv zeta in He.
  rewrite Hc in He. destruct He as (_ & _ & He).
  unfold store_result in He. rewrite Hup in He. cbn [ddb_exec] in He.
  rewrite (ddb_update_update_status_input user _ k rec st (table w) Hrec
             (wf_table_has_id _ _ _ Hwf Hrec) Hst) in He.
  exact He.
Qed.

(** ** What [marshall] puts in an item, and [create] *)

Lemma marshall_lookup fields item a :
  marshall fields = Some item ->
  item !! a = defined_field a fields ≫= convertToAttr.
Proof.
  revert item. induction fields as [| [k [v |]] r IH]; intros item;
    cbn [marshall defined_field].
  - intros [= <-]. apply lookup_empty.
  - destruct (convertToAttr v) as [x |] eqn:Hx; [| discriminate].
    destruct (marshall r) as [mr |]; [| discriminate].
    intros [= <-]. destruct (String.eqb a k) eqn:Hak.
    + apply String.eqb_eq in Hak as ->. rewrite lookup_insert_eq.
      cbn. rewrite Hx. reflexivity.
    + apply String.eqb_neq in Hak. rewrite lookup_insert_ne by congruence.
      apply IH. reflexivity.
  - apply IH.
Qed.

Lemma defined_field_not_in a fields :
  ~ In a (map fst fields) -> defined_field a fields = None.
Proof.
  induction fields as [| [k [v |]] r IH]; cbn [defined_field map fst In];
    intros Hnin; [reflexivity | | tauto].
  destruct (String.eqb a k) eqn:Hak; [| tauto].
  apply String.eqb_eq in Hak. subst. tauto.
Qed.

Lemma js_or_falsy v d : truthy v = false -> js_or v d = d.
Proof. unfold js_or. destruct v as [x |]; [| reflexivity]. intros ->. reflexivity. Qed.

Lemma js_or_truthy x d : truthy (Some x) = true -> js_or (Some x) d = x.
Proof. unfold js_or. intros ->. reflexivity. Qed.

Lemma string_or_absent_marshals v :
  string_or_absent v = true -> v = None \/ exists s, v = Some (JStr s).
Proof. destruct v as [[| | | s | |] |]; cbn; try discriminate; eauto. Qed.

(** [params.Item], attribute by attribute. *)
Lemma new_item_fields env user item w :
  new_item env user w = Some item ->
  item !! "id" = Some (AV_S (uuid_at env (uuid_calls w)))
  /\ item !! "status" = convertToAttr (js_or (prop user "status") (JStr "active"))
  /\ item !! "createdAt" = Some (AV_S (iso_at env (date_calls w)))
  /\ item !! "updatedAt" = Some (AV_S (iso_at env (S (date_calls w))))
  /\ (forall f, In f payload_fields -> item !! f = prop user f ≫= convertToAttr)
  /\ (forall a, ~ In a item_fields -> item !! a = None).
Proof.
  unfold new_item. intros Hit.
  pose proof (fun a => marshall_lookup _ item a Hit) as Hl.
  repeat split.
  - rewrite Hl. reflexivity.
  - rewrite Hl. unfold new_user_fields. cbn [defined_field].
    destruct (prop user "firstName"), (prop user "lastName"),
      (prop user "email"), (prop user "dob"); reflexivity.
  - rewrite Hl. unfold new_user_fields. cbn [defined_field].
    destruct (prop user "firstName"), (prop user "lastName"),
      (prop user "email"), (prop user "dob"); reflexivity.
  - rewrite Hl. unfold new_user_fields. cbn [defined_field].
    destruct (prop user "firstName"), (prop user "lastName"),
      (prop user "email"), (prop user "dob"); reflexivity.
  - intros f Hf. rewrite Hl. unfold new_user_fields. cbn [defined_field].
    cbn in Hf. destruct Hf as [<- | [<- | [<- | [<- | []]]]];
      destruct (prop user "firstName"), (prop user "lastName"),
        (prop user "email"), (prop user "dob"); reflexivity.
  - intros a Ha. rewrite Hl. rewrite defined_field_not_in; [reflexivity |].
    exact Ha.
Qed.

(** A payload of strings can always be marshalled. *)
Lemma new_item_valid env user w :
  valid_payload user = true -> is_Some (new_item env user w).
Proof.
  unfold valid_payload. cbn [forallb]. rewrite !andb_true_iff.
  intros (H1 & H2 & H3 & H4 & H5 & _).
  apply string_or_absent_marshals in H1, H2, H3, H4, H5.
  unfold new_item, new_user_fields.
  assert (Hst : exists s, js_or (prop user "status") (JStr "active") = JStr s).
  { destruct H5 as [-> | [s ->]]; [eauto |].
    unfold js_or. destruct (truthy (Some (JStr s))); eauto. }
  destruct Hst as [st ->].
  destruct H1 as [-> | [s1 ->]], H2 as [-> | [s2 ->]],
    H3 as [-> | [s3 ->]], H4 as [-> | [s4 ->]]; cbn; eauto.
Qed.

Lemma create_accepted env m user item w :
  parse_event env m = Some (user, Some (JStr "create")) ->
  new_item env user w = Some item ->
  event_command env m w = Some (PutItemCommand item)
  /\ ddb_sent (snd (handleUserEvent env m w))
     = (ddb_sent w ++ [PutItemCommand item])%list
  /\ (store_up w = true ->
      table (snd (handleUserEvent env m w))
      = <[uuid_at env (uuid_calls w) := item]> (table w)).
Proof.
  intros Hp Hit.
  assert (Hc : event_command env m w = Some (PutItemCommand item)).
  { unfold event_command. rewrite Hp. unfold command_of. rewrite Hit.
    reflexivity. }
  pose proof (handleUserEvent_effect env m w) as He. cbv zeta in He.
  rewrite Hc in He. destruct He as (Hs & _ & He).
  split; [exact Hc |]. split; [exact Hs |].
  intros Hup. unfold store_result in He. rewrite Hup in He.
  cbn [ddb_exec] in He. unfold ddb_put, key_of in He.
  rewrite (proj1 (new_item_fields env user item w Hit)) in He.
  exact He.
Qed.

(** C4, as amended: for every create payload whose fields are strings
    where present, the dispatcher sends one [PutItemCommand] whose item
    has the identifier just drawn from [uuidv4()], whatever the payload
    holds; its status is the payload's status, or "active" when that is
    absent (or falsy); [createdAt] and [updatedAt] are two successive
    readings of the clock, [createdAt] first, hence equal whenever the
    clock reads the same twice; a field absent from the payload is
    absent from the item, and the item has no attribute beyond the
    eight.  With the store up the item is stored under its id. *)
Theorem create_writes_new_record env m user w :
  parse_event env m = Some (user, Some (JStr "create")) ->
  valid_payload user = true ->
  exists item,
    ddb_sent (snd (handleUserEvent env m w))
    = (ddb_sent w ++ [PutItemCommand item])%list
    /\ item !! "id" = Some (AV_S (uuid_at env (uuid_calls w)))
    /\ item !! "status"
       = convertToAttr (js_or (prop user "status") (JStr "active"))
    /\ (prop user "status" = None -> item !! "status" = Some (AV_S "active"))
    /\ (forall s, prop user "status" = Some (JStr s) -> s <> "" ->
          item !! "status" = Some (AV_S s))
    /\ item !! "createdAt" = Some (AV_S (iso_at env (date_calls w)))
    /\ item !! "updatedAt" = Some (AV_S (iso_at env (S (date_calls w))))
    /\ (iso_at env (date_calls w) = iso_at env (S (date_calls w)) ->
        item !! "createdAt" = item !! "updatedAt")
    /\ (forall f, In f payload_fields -> prop user f = None -> item !! f = None)
    /\ (forall f s, In f payload_fields -> prop user f = Some (JStr s) ->
          item !! f = Some (AV_S s))
    /\ (forall a, ~ In a item_fields -> item !! a = None)
    /\ (store_up w = true ->
        table (snd (handleUserEvent env m w))
        = <[uuid_at env (uuid_calls w) := item]> (table w)).
Proof.
  intros Hp Hv. destruct (new_item_valid env user w Hv) as [item Hit].
  exists item.
  destruct (create_accepted env m user item w Hp Hit) as (_ & Hs & Ht).
  destruct (new_item_fields env user item w Hit)
    as (Hid & Hst & Hc & Hu & Hf & Hn).
  split; [exact Hs |]. split; [exact Hid |]. split; [exact Hst |].
  split; [intros Ha; rewrite Hst, Ha; reflexivity |].
  split.
  { intros s Ha Hne. rewrite Hst, Ha.
    rewrite (js_or_truthy _ _ (truthy_nonempty s Hne)). reflexivity. }
  split; [exact Hc |]. split; [exact Hu |].
  split; [intros Heq; rewrite Hc, Hu, Heq; reflexivity |].
  split; [intros f Hin Ha; rewrite (Hf f Hin), Ha; reflexivity |].
  split; [intros f s Hin Ha; rewrite (Hf f Hin), Ha; reflexivity |].
  split; [exact Hn | exact Ht].
Qed.

(** Example 1 of the specification. *)
Lemma create_writes_new_record_witness :
  exists item,
    ddb_sent (snd (handleUserEvent demo_env (msg body_create_john) empty_world))
    = [PutItemCommand item]
    /\ item !! "id" = Some (AV_S "0b7e6a7e-0000-4000-8000-000000000000")
    /\ item !! "status" = Some (AV_S "active").
Proof.
  destruct (create_writes_new_record demo_env (msg body_create_john)
              user_john empty_world eq_refl eq_refl)
    as (item & Hs & Hid & _ & Hst & _).
  exists item. split; [exact Hs |]. split; [exact Hid |].
  apply Hst. reflexivity.
Defined.

(** C4 as stated fails: with a clock that advances between the two
    evaluations of [new Date()] at lines 108 and 109, the record written
    for the payload of example 1 has [createdAt] different from
    [updatedAt]. *)
Lemma create_timestamps_differ :
  valid_payload user_john = true
  /\ exists item,
       ddb_sent (snd (handleUserEvent demo_env (msg body_create_john) empty_world))
       = [PutItemCommand item]
       /\ item !! "createdAt" = Some (AV_S "2024-05-01T10:00:00.000Z")
       /\ item !! "updatedAt" = Some (AV_S "2024-05-01T10:00:00.001Z")
       /\ item !! "createdAt" <> item !! "updatedAt".
Proof.
  split; [reflexivity |].
  destruct (new_item_valid demo_env user_john empty_world eq_refl) as [item Hit].
  exists item.
  destruct (create_accepted demo_env (msg body_create_john) user_john item
              empty_world eq_refl Hit) as (_ & Hs & _).
  destruct (new_item_fields demo_env user_john item empty_world Hit)
    as (_ & _ & Hc & Hu & _).
  split; [exact Hs |]. split; [exact Hc |]. split; [exact Hu |].
  rewrite Hc, Hu. discriminate.
Qed.

(** C5: an [update] assigns exactly [firstName], [lastName], [dob],
    [updatedAt] and [status], the latter with the constant "updated"
    whatever the payload says.  In every world it creates and removes
    no record and leaves every other attribute of every record, [email]
    and [createdAt] among them, as it was; and when it reaches an
    existing record with string values, that record becomes the old one
    with the five attributes overwritten. *)
Theorem update_touches_exactly_five_fields env m user w :
  parse_event env m = Some (user, Some (JStr "update")) ->
  let w' := snd (handleUserEvent env m w) in
  (forall now key,
     assigned (update_input user now key) = map Some update_fields
     /\ assoc ":status" (ExpressionAttributeValues (update_input user now key))
        = Some (InS (JStr "updated")))
  /\ (forall k, is_Some (table w' !! k) <-> is_Some (table w !! k))
  /\ (forall k a, ~ In a update_fields ->
        field (table w') k a = field (table w) k a)
  /\ (forall k, field (table w') k "email" = field (table w) k "email"
                /\ field (table w') k "createdAt" = field (table w) k "createdAt")
  /\ (forall k rec fn ln d,
        reaches_record env user k rec w ->
        as_string (js_or (prop user "firstName") (JStr "")) = Some fn ->
        as_string (js_or (prop user "lastName") (JStr "")) = Some ln ->
        as_string (js_or (prop user "dob") (JStr "")) = Some d ->
        table w' = <[k := updated_record rec fn ln d (update_time env w)]> (table w)
        /\ field (table w') k "firstName" = Some (AV_S fn)
        /\ field (table w') k "lastName" = Some (AV_S ln)
        /\ field (table w') k "dob" = Some (AV_S d)
        /\ field (table w') k "updatedAt" = Some (AV_S (update_time env w))
        /\ field (table w') k "status" = Some (AV_S "updated")).
Proof.
  intros Hp w'. subst w'.
  destruct (update_frame env m user w Hp) as [Hdom Hframe].
  split; [intros now key; split; reflexivity |].
  split; [exact Hdom |]. split; [exact Hframe |].
  split.
  { intros k. split; apply Hframe; cbn; intuition discriminate. }
  intros k rec fn ln d Hr Hfn Hln Hd.
  destruct (update_accepted env m user k rec fn ln d w Hp Hr Hfn Hln Hd)
    as [_ Ht].
  split; [exact Ht |].
  rewrite Ht. unfold field, updated_record. rewrite lookup_insert_eq.
  repeat split; by simplify_map_eq.
Qed.

Lemma wf_table_world_abc : wf_table (table world_abc).
Proof.
  apply map_Forall_insert_2; [reflexivity | apply map_Forall_empty].
Qed.

Lemma reaches_record_abc user :
  prop user "id" = Some (JStr "abc") -> valid_payload user = true ->
  reaches_record demo_env user "abc" record_abc world_abc.
Proof.
  intros Hid Hv. split; [exact Hid |]. split; [discriminate |].
  split; [exact wf_table_world_abc |]. split; [reflexivity |].
  split; [apply new_item_valid, Hv | reflexivity].
Qed.

(** Example 2 of the specification. *)
Lemma update_touches_exactly_five_fields_witness :
  let w' := snd (handleUserEvent demo_env (msg body_update_abc) world_abc) in
  field (table w') "abc" "firstName" = Some (AV_S "Jane")
  /\ field (table w') "abc" "status" = Some (AV_S "updated")
  /\ field (table w') "abc" "email" = Some (AV_S "jane@x.com")
  /\ field (table w') "abc" "createdAt" = Some (AV_S "2024-01-01T00:00:00.000Z").
Proof.
  intros w'. subst w'.
  destruct (update_touches_exactly_five_fields demo_env (msg body_update_abc)
              user_update_abc world_abc eq_refl)
    as (_ & _ & _ & Hframe & Hwrite).
  destruct (Hwrite "abc" record_abc "Jane" "" ""
              (reaches_record_abc user_update_abc eq_refl eq_refl)
              eq_refl eq_refl eq_refl)
    as (_ & Hfn & _ & _ & _ & Hst).
  destruct (Hframe "abc") as [He Hc].
  split; [exact Hfn |]. split; [exact Hst |].
  split; [rewrite He; reflexivity | rewrite Hc; reflexivity].
Defined.

(** C6: an [updateStatus] assigns [status] and [updatedAt] only.  In
    every world it creates and removes no record and leaves every other
    attribute of every record, [firstName], [lastName], [dob], [email]
    and [createdAt] among them, as it was; and when it reaches an
    existing record, that record becomes the old one with the two
    attributes overwritten. *)
Theorem updateStatus_changes_status_and_updatedAt_only env m user w :
  parse_event env m = Some (user, Some (JStr "updateStatus")) ->
  let w' := snd (handleUserEvent env m w) in
  (forall now key,
     assigned (update_status_input user now key) = map Some update_status_fields)
  /\ (forall k, is_Some (table w' !! k) <-> is_Some (table w !! k))
  /\ (forall k a, ~ In a update_status_fields ->
        field (table w') k a = field (table w) k a)
  /\ (forall k a,
        In a ["firstName"; "lastName"; "dob"; "email"; "createdAt"] ->
        field (table w') k a = field (table w) k a)
  /\ (forall k rec st,
        reaches_record env user k rec w ->
        as_string (js_or (prop user "status") (JStr "")) = Some st ->
        table w' = <[k := restatused_record rec st (update_time env w)]> (table w)
        /\ field (table w') k "status" = Some (AV_S st)
        /\ field (table w') k "updatedAt" = Some (AV_S (update_time env w))).
Proof.
  intros Hp w'. subst w'.
  destruct (updateStatus_frame env m user w Hp) as [Hdom Hframe].
  split; [intros now key; reflexivity |].
  split; [exact Hdom |]. split; [exact Hframe |].
  split.
  { intros k a Ha. apply Hframe. cbn in Ha. cbn.
    intuition (subst; discriminate). }
  intros k rec st Hr Hst.
  destruct (updateStatus_accepted env m user k rec st w Hp Hr Hst) as [_ Ht].
  split; [exact Ht |].
  rewrite Ht. unfold field, restatused_record. rewrite lookup_insert_eq.
  repeat split; by simplify_map_eq.
Qed.

Lemma updateStatus_changes_status_and_updatedAt_only_witness :
  let w' := snd (handleUserEvent demo_env (msg body_status_abc) world_abc) in
  field (table w') "abc" "status" = Some (AV_S "suspended")
  /\ field (table w') "abc" "firstName" = Some (AV_S "Janet")
  /\ field (table w') "abc" "email" = Some (AV_S "jane@x.com").
Proof.
  intros w'. subst w'.
  destruct (updateStatus_changes_status_and_updatedAt_only demo_env
              (msg body_status_abc)
              user_status_abc world_abc eq_refl)
    as (_ & _ & _ & Hframe & Hwrite).
  destruct (Hwrite "abc" record_abc "suspended"
              (reaches_record_abc user_status_abc eq_refl eq_refl) eq_refl)
    as (_ & Hst & _).
  split; [exact Hst |].
  split; [rewrite (Hframe "abc" "firstName") by (cbn; tauto); reflexivity |].
  rewrite (Hframe "abc" "email") by (cbn; tauto). reflexivity.
Defined.

(** C9: when the payload of an [update] has no (or a falsy)
    [firstName], [lastName] or [dob], the request assigns the empty
    string to that attribute, and the record it reaches holds the empty
    string there afterwards, whatever it held before. *)
Theorem update_blanks_missing_fields env m user f w :
  parse_event env m = Some (user, Some (JStr "update")) ->
  In f ["firstName"; "lastName"; "dob"] ->
  truthy (prop user f) = false ->
  let w' := snd (handleUserEvent env m w) in
  (forall now key,
     In (("#" ++ f)%string, (":" ++ f)%string)
        (UpdateExpression (update_input user now key))
     /\ assoc ("#" ++ f)%string (ExpressionAttributeNames (update_input user now key))
        = Some f
     /\ assoc (":" ++ f)%string (ExpressionAttributeValues (update_input user now key))
        = Some (InS (JStr "")))
  /\ (forall k rec fn ln d,
        reaches_record env user k rec w ->
        as_string (js_or (prop user "firstName") (JStr "")) = Some fn ->
        as_string (js_or (prop user "lastName") (JStr "")) = Some ln ->
        as_string (js_or (prop user "dob") (JStr "")) = Some d ->
        field (table w') k f = Some (AV_S "")).
Proof.
  intros Hp Hf Hfalsy w'. subst w'. split.
  { intros now key. cbn in Hf.
    destruct Hf as [<- | [<- | [<- | []]]];
      (split; [cbn; tauto |]); (split; [reflexivity |]); cbn;
      rewrite (js_or_falsy _ _ Hfalsy); reflexivity. }
  intros k rec fn ln d Hr Hfn Hln Hd.
  destruct (update_accepted env m user k rec fn ln d w Hp Hr Hfn Hln Hd)
    as [_ Ht].
  rewrite Ht. unfold field, updated_record. rewrite lookup_insert_eq.
  cbn in Hf. destruct Hf as [<- | [<- | [<- | []]]];
    rewrite (js_or_falsy _ _ Hfalsy) in *; simplify_eq/=; by simplify_map_eq.
Qed.

(** Example 2 of the specification: the payload has no [lastName], and
    the stored "Roe" is replaced by the empty string. *)
Lemma update_blanks_missing_fields_witness :
  field (table world_abc) "abc" "lastName" = Some (AV_S "Roe")
  /\ field (table (snd (handleUserEvent demo_env (msg body_update_abc) world_abc)))
       "abc" "lastName" = Some (AV_S "").
Proof.
  split; [reflexivity |].
  destruct (update_blanks_missing_fields demo_env (msg body_update_abc)
              user_update_abc "lastName" world_abc eq_refl
              (or_intror (or_introl eq_refl)) eq_refl)
    as [_ Hwrite].
  exact (Hwrite "abc" record_abc "Jane" "" ""
           (reaches_record_abc user_update_abc eq_refl eq_refl)
           eq_refl eq_refl eq_refl).
Defined.

(** C10: an empty status is treated in two ways.  On [create], a
    payload whose status is the empty string (or absent) is written with
    status "active"; on [updateStatus], a payload whose status is absent
    or the empty string assigns the empty string, and the record it
    reaches has the empty string as its status afterwards. *)
Theorem empty_status_active_on_create_blank_on_updateStatus env m user w :
  prop user "status" = None \/ prop user "status" = Some (JStr "") ->
  let w' := snd (handleUserEvent env m w) in
  (parse_event env m = Some (user, Some (JStr "create")) ->
   forall item, new_item env user w = Some item ->
     ddb_sent w' = (ddb_sent w ++ [PutItemCommand item])%list
     /\ item !! "status" = Some (AV_S "active")
     /\ (store_up w = true ->
         field (table w') (uuid_at env (uuid_calls w)) "status"
         = Some (AV_S "active")))
  /\ (parse_event env m = Some (user, Some (JStr "updateStatus")) ->
      (forall now key,
         assoc ":status"
           (ExpressionAttributeValues (update_status_input user now key))
         = Some (InS (JStr "")))
      /\ (forall k rec, reaches_record env user k rec w ->
            field (table w') k "status" = Some (AV_S ""))).
Proof.
  intros Hst w'. subst w'.
  assert (Hfalsy : truthy (prop user "status") = false)
    by (destruct Hst as [-> | ->]; reflexivity).
  split.
  - intros Hp item Hit.
    destruct (create_accepted env m user item w Hp Hit) as (_ & Hs & Ht).
    destruct (new_item_fields env user item w Hit) as (_ & Hstatus & _).
    rewrite (js_or_falsy _ _ Hfalsy) in Hstatus.
    split; [exact Hs |]. split; [exact Hstatus |].
    intros Hup. rewrite (Ht Hup). unfold field. rewrite lookup_insert_eq.
    exact Hstatus.
  - intros Hp. split.
    + intros now key. cbn. rewrite (js_or_falsy _ _ Hfalsy). reflexivity.
    + intros k rec Hr.
      assert (Has : as_string (js_or (prop user "status") (JStr "")) = Some "")
        by (rewrite (js_or_falsy _ _ Hfalsy); reflexivity).
      destruct (updateStatus_accepted env m user k rec "" w Hp Hr Has)
        as [_ Ht].
      rewrite Ht. unfold field, restatused_record. rewrite lookup_insert_eq.
      by simplify_map_eq.
Qed.

Lemma empty_status_active_on_create_blank_on_updateStatus_witness :
  field (table (snd (handleUserEvent demo_env (msg body_create_blank_status)
                       empty_world)))
    "0b7e6a7e-0000-4000-8000-000000000000" "status" = Some (AV_S "active")
  /\ field (table (snd (handleUserEvent demo_env (msg body_status_abc_blank)
                          world_abc)))
       "abc" "status" = Some (AV_S "").
Proof.
  split.
  - destruct (new_item_valid demo_env user_blank_status empty_world eq_refl)
      as [item Hit].
    destruct (empty_status_active_on_create_blank_on_updateStatus demo_env
                (msg body_create_blank_status) user_blank_status empty_world
                (or_intror eq_refl)) as [Hcreate _].
    destruct (Hcreate eq_refl item Hit) as (_ & _ & Hfield).
    exact (Hfield eq_refl).
  - destruct (empty_status_active_on_create_blank_on_updateStatus demo_env
                (msg body_status_abc_blank) user_status_abc_blank world_abc
                (or_introl eq_refl)) as [_ Hupd].
    destruct (Hupd eq_refl) as [_ Hfield].
    exact (Hfield "abc" record_abc
             (reaches_record_abc user_status_abc_blank eq_refl eq_refl)).
Defined.

(** ** The read operations *)

Lemma getUserStatus_cases email dob w :
  fst (getUserStatus email dob w)
  = Throw (BadRequestException "Both email and date of birth must be provided.")
  \/ fst (getUserStatus email dob w) = Throw lookup_failed
  \/ exists r, fst (getUserStatus email dob w) = Ok r.
Proof.
  unfold getUserStatus, bind, throw_if, try_catch, ret, throw, or_throw, logger.
  destruct (falsy_str email || falsy_str dob); [left; reflexivity |].
  right. cbn [fst snd].
  destruct (dynamoDBClient_send _ w) as [[[[| user l] |] | e] w1];
    cbn [fst snd]; try (left; reflexivity).
  destruct (attr_S user "id") as [id |]; cbn [fst snd];
    [| left; reflexivity].
  destruct (attr_S user "status") as [st |]; cbn [fst snd];
    [right; eauto | left; reflexivity].
Qed.

Lemma getEntireUserDetails_cases id w :
  fst (getEntireUserDetails id w)
  = Throw (BadRequestException "Both email and date of birth must be provided.")
  \/ fst (getEntireUserDetails id w) = Throw lookup_failed
  \/ exists r, fst (getEntireUserDetails id w) = Ok r.
Proof.
  unfold getEntireUserDetails, bind, throw_if, try_catch, ret, throw, logger.
  destruct (falsy_str id); [left; reflexivity |].
  right. cbn [fst snd].
  destruct (dynamoDBClient_send _ w) as [[[[| user l] |] | e] w1];
    cbn [fst snd]; try (left; reflexivity).
  right. eauto.
Qed.

(** C1 fails on the code.  The "User not found" exception of lines 234
    and 264 is thrown inside the [try] whose [catch] replaces every
    exception by "Failed to check user status": neither operation ever
    throws "User not found", and a query that succeeds with no match
    ends in the very exception of a failed query. *)
Theorem not_found_is_reported_as_lookup_failed :
  (forall email dob w, fst (getUserStatus email dob w) <> Throw user_not_found)
  /\ (forall id w, fst (getEntireUserDetails id w) <> Throw user_not_found)
  /\ store_result
       (QueryCommand
          {| IndexName := Some "email-dob-index";
             KeyConditionExpression := [("email", ":email"); ("dob", ":dob")];
             QueryValues := [ (":email", InS (JStr "a@b.com"));
                              (":dob", InS (JStr "1990-01-01")) ] |})
       world_abc
     = inr (table world_abc, Some [])
  /\ fst (getUserStatus (Some "a@b.com") (Some "1990-01-01") world_abc)
     = Throw lookup_failed
  /\ fst (getUserStatus (Some "a@b.com") (Some "1990-01-01")
            (set_ddb_faults [true] world_abc))
     = Throw lookup_failed
  /\ fst (getEntireUserDetails (Some "missing-id") world_abc)
     = Throw lookup_failed
  /\ fst (getEntireUserDetails (Some "missing-id")
            (set_ddb_faults [true] world_abc))
     = Throw lookup_failed.
Proof.
  split.
  { intros email dob w H.
    destruct (getUserStatus_cases email dob w) as [H' | [H' | [r H']]];
      rewrite H' in H; discriminate. }
  split.
  { intros id w H.
    destruct (getEntireUserDetails_cases id w) as [H' | [H' | [r H']]];
      rewrite H' in H; discriminate. }
  repeat split; vm_compute; reflexivity.
Qed.

(** ** The consume loop *)

Lemma process_message_effect env m w :
  let r := process_message env m w in
  fst r = (if any_fault 1 (sqs_delete_faults w) then Throw SQSException else Ok tt)
  /\ sqs_inbox (snd r) = sqs_inbox w
  /\ timers (snd r) = timers w
  /\ sqs_delete_faults (snd r) = tail (sqs_delete_faults w)
  /\ sqs_sent (snd r)
     = (sqs_sent w ++ [DeleteMessageCommand (ReceiptHandle m)])%list.
Proof.
  cbv zeta. rewrite process_message_unfold.
  set (w0 := log_to LOG "${message.Body}" (ArgStr (Body m)) w).
  pose proof (keeps_sqs_handleUserEvent env m w0) as Hk.
  unfold sqs_view in Hk. injection Hk as Hi Hf Hs Ht.
  unfold sqsClient_delete, any_fault. rewrite Hf.
  change (sqs_delete_faults w0) with (sqs_delete_faults w).
  destruct (sqs_delete_faults w) as [| [|] f];
    cbn [fst snd sqs_inbox timers sqs_delete_faults sqs_sent
         set_sqs_delete_faults set_sqs_sent take existsb tail orb];
    rewrite Hi, Ht, Hs; repeat split.
Qed.

Lemma for_of_process_effect env msgs w :
  let r := for_of msgs (process_message env) w in
  fst r = (if any_fault (length msgs) (sqs_delete_faults w)
           then Throw SQSException else Ok tt)
  /\ sqs_inbox (snd r) = sqs_inbox w
  /\ timers (snd r) = timers w
  /\ exists ds, sqs_sent (snd r) = (sqs_sent w ++ ds)%list
       /\ forallb is_delete ds = true
       /\ (length ds <= length msgs)%nat.
Proof.
  revert w. induction msgs as [| m r IH]; intros w; cbv zeta.
  - cbn. repeat split. exists []. rewrite app_nil_r. repeat split. cbn. lia.
  - cbn [for_of]. unfold bind.
    pose proof (process_message_effect env m w) as Hm. cbv zeta in Hm.
    destruct (process_message env m w) as [[[] | e] w1]; cbn [fst snd] in *;
      destruct Hm as (Hr & Hi & Ht & Hf & Hs).
    + specialize (IH w1). cbv zeta in IH.
      destruct IH as (IHr & IHi & IHt & ds & IHs & IHd & IHl).
      split.
      { rewrite IHr, Hf. unfold any_fault in *.
        destruct (sqs_delete_faults w) as [| [|] f]; cbn in *;
          [rewrite take_nil; reflexivity | discriminate | reflexivity]. }
      split; [congruence |]. split; [congruence |].
      exists (DeleteMessageCommand (ReceiptHandle m) :: ds).
      rewrite IHs, Hs, <- app_assoc. cbn. repeat split; [exact IHd | lia].
    + split.
      { rewrite Hr. unfold any_fault in *.
        destruct (sqs_delete_faults w) as [| [|] f]; cbn in *;
          [discriminate | reflexivity | discriminate]. }
      split; [exact Hi |]. split; [exact Ht |].
      exists [DeleteMessageCommand (ReceiptHandle m)].
      rewrite Hs. cbn. repeat split. lia.
Qed.

Lemma sqsClient_receive_spec w :
  sqsClient_receive 10 20 w
  = (match sqs_inbox w with
     | RecvFails :: _ => Throw SQSException
     | RecvResponse ms :: _ => Ok (take 10 <$> ms)
     | [] => Ok None
     end,
     set_sqs_inbox (tail (sqs_inbox w))
       (set_sqs_sent (sqs_sent w ++ [ReceiveMessageCommand 10 20]) w)).
Proof.
  unfold sqsClient_receive. destruct (sqs_inbox w) as [| [|] inbox]; reflexivity.
Qed.

Lemma pollQueue_unfold env w :
  pollQueue env w
  = match sqs_inbox w with
    | RecvResponse (Some (m :: ms)) :: _ =>
        match for_of (take 10 (m :: ms)) (process_message env) (received w) with
        | (Ok _, w2) => (Ok tt, schedule Immediately w2)
        | (Throw e, w2) =>
            (Ok tt,
             schedule (After pollingInterval)
               (log_to ERROR "Error polling SQS queue:" (ArgExn e) w2))
        end
    | RecvFails :: _ =>
        (Ok tt,
         schedule (After pollingInterval)
           (log_to ERROR "Error polling SQS queue:" (ArgExn SQSException)
              (received w)))
    | _ =>
        (Ok tt,
         schedule (After pollingInterval)
           (log_to LOG "Queue is empty, waiting before next poll..." NoArg
              (received w)))
    end.
Proof.
  unfold pollQueue, try_catch. unfold bind at 1. cbv beta.
  rewrite sqsClient_receive_spec. fold (received w).
  destruct (sqs_inbox w) as [| [| [[| m ms] |]] inbox]; try reflexivity.
  cbn [fmap option_fmap option_map].
  change (take 10 (m :: ms)) with (m :: take 9 ms).
  unfold bind. cbv beta iota.
  destruct (for_of (m :: take 9 ms) (process_message env) (received w))
    as [[[] | e] w2]; reflexivity.
Qed.

(** One invocation of [pollQueue]: it returns normally, sends the
    receive request and then only deletes, and leaves exactly one more
    invocation pending, scheduled as [next_schedule] says. *)
Lemma pollQueue_effect env w :
  let r := pollQueue env w in
  fst r = Ok tt
  /\ sqs_inbox (snd r) = tail (sqs_inbox w)
  /\ timers (snd r) = (timers w ++ [next_schedule w])%list
  /\ exists ds,
       sqs_sent (snd r)
       = (sqs_sent w ++ ReceiveMessageCommand 10 20 :: ds)%list
       /\ forallb is_delete ds = true /\ (length ds <= 10)%nat.
Proof.
  cbv zeta. rewrite pollQueue_unfold. unfold next_schedule, any_fault.
  destruct (sqs_inbox w) as [| [| [[| m ms] |]] inbox] eqn:Hin;
    try (cbn; rewrite ?Hin; repeat split; exists []; cbn; repeat split; lia).
  pose proof (for_of_process_effect env (take 10 (m :: ms)) (received w)) as Hf.
  cbv zeta in Hf. destruct Hf as (Hr & Hi & Ht & ds & Hs & Hd & Hl).
  change (sqs_delete_faults (received w)) with (sqs_delete_faults w) in Hr.
  unfold any_fault in Hr.
  destruct (for_of (take 10 (m :: ms)) (process_message env) (received w))
    as [[[] | e] w2]; cbn [fst snd] in *.
  - destruct (existsb _ _); [discriminate |].
    cbn -[take]. rewrite Hi, Ht, Hs. cbn -[take]. rewrite Hin.
    repeat split.
    exists ds. rewrite <- app_assoc. repeat split; [exact Hd |].
    rewrite length_take in Hl. lia.
  - destruct (existsb _ _); [| discriminate].
    cbn -[take]. rewrite Hi, Ht, Hs. cbn -[take]. rewrite Hin.
    repeat split.
    exists ds. rewrite <- app_assoc. repeat split; [exact Hd |].
    rewrite length_take in Hl. lia.
Qed.

Lemma receives_app w ds :
  forallb is_delete ds = true ->
  List.filter is_receive (sqs_sent w ++ ReceiveMessageCommand 10 20 :: ds)
  = (receives w ++ [ReceiveMessageCommand 10 20])%list.
Proof.
  intros Hd. unfold receives. rewrite List.filter_app. cbn. f_equal. f_equal.
  induction ds as [| c r IH]; [reflexivity |].
  cbn in Hd. apply andb_true_iff in Hd as [Hc Hr]. cbn.
  unfold is_delete in Hc. apply negb_true_iff in Hc. rewrite Hc. auto.
Qed.

(** However many turns the event loop takes, one invocation of
    [pollQueue] is pending and every turn has made one receive call. *)
Lemma event_loop_runs env n w :
  length (timers w) = 1%nat ->
  length (timers (event_loop env n w)) = 1%nat
  /\ receives (event_loop env n w)
     = (receives w ++ repeat (ReceiveMessageCommand 10 20) n)%list.
Proof.
  revert w. induction n as [| n IH]; intros w Hw; cbn [event_loop repeat].
  - rewrite app_nil_r. auto.
  - destruct (timers w) as [| d [| d' r]] eqn:Ht; try discriminate Hw.
    pose proof (pollQueue_effect env (set_timers [] w)) as Hp.
    cbv zeta in Hp. destruct Hp as (_ & _ & Hti & ds & Hs & Hd & _).
    cbn [timers set_timers app] in Hti.
    destruct (IH (snd (pollQueue env (set_timers [] w)))) as [IH1 IH2].
    { rewrite Hti. reflexivity. }
    split; [exact IH1 |].
    rewrite IH2. unfold receives at 1. rewrite Hs.
    change (sqs_sent (set_timers [] w)) with (sqs_sent w).
    rewrite (receives_app w ds Hd), <- app_assoc. reflexivity.
Qed.

(** C8, as amended: every invocation of [pollQueue] returns normally,
    first requests up to 10 messages with a wait of 20 seconds, then
    sends at most 10 deletes, and leaves exactly one further invocation
    pending: at once after a non-empty batch all of whose deletes went
    through, through [setTimeout] with the 10000 ms interval after an
    empty batch, a failed receive or a failed delete.  So the loop never
    stops: started with nothing pending, after any number [n] of further
    turns one invocation is pending and [n + 1] receive calls have been
    made. *)
Theorem pollQueue_always_reschedules env w :
  let r := pollQueue env w in
  fst r = Ok tt
  /\ (exists ds,
        sqs_sent (snd r) = (sqs_sent w ++ ReceiveMessageCommand 10 20 :: ds)%list
        /\ forallb is_delete ds = true /\ (length ds <= 10)%nat)
  /\ timers (snd r) = (timers w ++ [next_schedule w])%list
  /\ (next_schedule w = Immediately \/ next_schedule w = After 10000)
  /\ (next_schedule w = Immediately <->
      exists m ms rest,
        sqs_inbox w = RecvResponse (Some (m :: ms)) :: rest
        /\ any_fault (length (take 10 (m :: ms))) (sqs_delete_faults w) = false)
  /\ (forall n, timers w = [] ->
        length (timers (event_loop env n (snd (onModuleInit env w)))) = 1%nat
        /\ receives (event_loop env n (snd (onModuleInit env w)))
           = (receives w ++ repeat (ReceiveMessageCommand 10 20) (S n))%list).
Proof.
  cbv zeta.
  destruct (pollQueue_effect env w) as (Hok & _ & Ht & ds & Hs & Hd & Hl).
  split; [exact Hok |]. split; [eauto |]. split; [exact Ht |].
  split.
  { unfold next_schedule, pollingInterval.
    destruct (sqs_inbox w) as [| [| [[| m ms] |]] inbox]; auto.
    destruct (any_fault _ _); auto. }
  split.
  { unfold next_schedule. split.
    - destruct (sqs_inbox w) as [| [| [[| m ms] |]] inbox]; try discriminate.
      destruct (any_fault _ _) eqn:He; [discriminate |].
      intros _. exists m, ms, inbox. split; [reflexivity | exact He].
    - intros (m & ms & rest & -> & ->). reflexivity. }
  intros n Hw. unfold onModuleInit.
  destruct (event_loop_runs env n (snd (pollQueue env w))) as [H1 H2].
  { rewrite Ht, Hw. reflexivity. }
  split; [exact H1 |].
  rewrite H2. unfold receives at 1. rewrite Hs, (receives_app w ds Hd).
  rewrite <- app_assoc. reflexivity.
Qed.

(** C8 as stated fails: after a non-empty batch whose delete request
    fails, [pollQueue] does not poll again at once, it waits for the
    polling interval. *)
Lemma nonempty_batch_then_wait :
  sqs_inbox world_failing_delete
  = [RecvResponse (Some [msg body_create_john])]
  /\ sqs_sent (snd (pollQueue demo_env world_failing_delete))
     = [ReceiveMessageCommand 10 20; DeleteMessageCommand (Some "rh-1")]
  /\ timers (snd (pollQueue demo_env world_failing_delete)) = [After 10000].
Proof.
  split; [reflexivity |]. split; vm_compute; reflexivity.
Qed.

(** ** The table stays well formed *)

Lemma apply_set_keeps_id names values acts it it' :
  apply_set names values acts it = Some it' -> it' !! "id" = it !! "id".
Proof.
  revert it. induction acts as [| [path ph] r IH]; intros it; cbn [apply_set].
  - intros [= <-]. reflexivity.
  - destruct (resolve_name names path) as [b |]; [| discriminate].
    destruct (assoc ph values) as [[[| | | s | |]] |]; try discriminate.
    destruct (String.eqb b "id") eqn:Hb; [discriminate |].
    intros Happ. rewrite (IH _ Happ). apply lookup_insert_ne.
    apply String.eqb_neq in Hb. exact Hb.
Qed.

Lemma ddb_exec_wf c t t' items :
  wf_table t -> ddb_exec c t = inr (t', items) -> wf_table t'.
Proof.
  intros Hwf. destruct c as [item | inp | q]; cbn [ddb_exec].
  - unfold ddb_put, key_of.
    destruct (item !! "id") as [[s | | | | |] |] eqn:Hid; try discriminate.
    intros [= <- _]. apply map_Forall_insert_2; [| exact Hwf].
    unfold has_id. rewrite Hid. apply String.eqb_refl.
  - unfold ddb_update.
    destruct (negb _); [discriminate |].
    destruct (key_of (Key inp)) as [k |]; [| discriminate].
    destruct (eval_condition _ _); [| discriminate].
    destruct (t !! k) as [it |] eqn:Hk; [| discriminate].
    destruct (apply_set _ _ _ it) as [it' |] eqn:Ha; [| discriminate].
    intros [= <- _]. apply map_Forall_insert_2; [| exact Hwf].
    unfold has_id. rewrite (apply_set_keeps_id _ _ _ _ _ Ha).
    exact (Hwf k it Hk).
  - destruct (ddb_query q t); [discriminate |]. intros [= <- _]. exact Hwf.
Qed.

(** The dispatcher keeps every stored item under its own [id]. *)
Lemma handleUserEvent_wf env m w :
  wf_table (table w) -> wf_table (table (snd (handleUserEvent env m w))).
Proof.
  intros Hwf.
  pose proof (handleUserEvent_effect env m w) as He. cbv zeta in He.
  destruct (event_command env m w) as [c |].
  - destruct He as (_ & _ & He). unfold store_result in He.
    destruct (store_up w).
    + destruct (ddb_exec c (table w)) as [e | [t' items]] eqn:Hx.
      * destruct He as [-> _]. exact Hwf.
      * rewrite He. exact (ddb_exec_wf c _ _ _ Hwf Hx).
    + destruct He as [-> _]. exact Hwf.
  - destruct He as (-> & _). exact Hwf.
Qed.


(** ** More on the read operations *)

Lemma set_table_sent c w : set_table (table w) (sent c w) = sent c w.
Proof. destruct w. reflexivity. Qed.

Lemma store_result_query q w :
  store_result (QueryCommand q) w
  = if store_up w then
      match ddb_query q (table w) with
      | inl e => inl e
      | inr items => inr (table w, Some items)
      end
    else inl "ServiceUnavailable".
Proof. reflexivity. Qed.

(** What the two operations do once their arguments are accepted. *)
Lemma getUserStatus_unfold e d w :
  e <> "" -> d <> "" ->
  getUserStatus (Some e) (Some d) w
  = match store_result (QueryCommand (status_query e d)) w with
    | inl name =>
        (Throw lookup_failed,
         log_to ERROR "Error checking user status:"
           (ArgExn (DynamoDBException name))
           (sent (QueryCommand (status_query e d)) w))
    | inr (_, Some (user :: _)) =>
        match attr_S user "id", attr_S user "status" with
        | Some id, Some st =>
            (Ok (id, st), sent (QueryCommand (status_query e d)) w)
        | _, _ =>
            (Throw lookup_failed,
             log_to ERROR "Error checking user status:" (ArgExn TypeError)
               (sent (QueryCommand (status_query e d)) w))
        end
    | inr (_, _) =>
        (Throw lookup_failed,
         log_to ERROR "Error checking user status:" (ArgExn user_not_found)
           (sent (QueryCommand (status_query e d)) w))
    end.
Proof.
  intros He Hd. unfold getUserStatus.
  apply String.eqb_neq in He, Hd.
  unfold bind at 1. unfold throw_if. cbn [falsy_str]. rewrite He, Hd.
  cbn [orb ret default from_option id]. unfold try_catch, bind at 1.
  fold (status_query e d). rewrite send_spec.
  rewrite store_result_query. unfold store_result.
  destruct (store_up w); [| reflexivity].
  destruct (ddb_query (status_query e d) (table w)) as [name | items];
    [reflexivity |].
  rewrite set_table_sent.
  destruct items as [| user rest]; [reflexivity |].
  unfold bind, or_throw, ret, throw, logger.
  destruct (attr_S user "id") as [id |]; [| reflexivity].
  destruct (attr_S user "status") as [st |]; reflexivity.
Qed.

Lemma getEntireUserDetails_unfold i w :
  i <> "" ->
  getEntireUserDetails (Some i) w
  = match store_result (QueryCommand (details_query i)) w with
    | inl name =>
        (Throw lookup_failed,
         log_to ERROR "Error checking user status:"
           (ArgExn (DynamoDBException name))
           (sent (QueryCommand (details_query i)) w))
    | inr (_, Some (user :: _)) =>
        (Ok user, sent (QueryCommand (details_query i)) w)
    | inr (_, _) =>
        (Throw lookup_failed,
         log_to ERROR "Error checking user status:" (ArgExn user_not_found)
           (sent (QueryCommand (details_query i)) w))
    end.
Proof.
  intros Hi. unfold getEntireUserDetails.
  apply String.eqb_neq in Hi.
  unfold bind at 1. unfold throw_if. cbn [falsy_str]. rewrite Hi.
  cbn [ret default from_option id]. unfold try_catch, bind at 1.
  fold (details_query i). rewrite send_spec.
  rewrite store_result_query. unfold store_result.
  destruct (store_up w); [| reflexivity].
  destruct (ddb_query (details_query i) (table w)) as [name | items];
    [reflexivity |].
  rewrite set_table_sent.
  destruct items as [| user rest]; reflexivity.
Qed.

(** Filtering the items of a table, as a query does. *)
Lemma filter_items_none (P : Item -> bool) (l : list (string * Item)) :
  (forall k r, (k, r) ∈ l -> P r = false) ->
  List.filter P (map snd l) = [].
Proof.
  induction l as [| [k0 r0] l IH]; intros Hall; [reflexivity |].
  cbn [map snd List.filter].
  rewrite (Hall k0 r0) by apply list_elem_of_here.
  apply IH. intros k r Hin. apply (Hall k r). by apply list_elem_of_further.
Qed.

Lemma filter_items_unique (P : Item -> bool) (l : list (string * Item)) k rec :
  NoDup (l.*1) -> (k, rec) ∈ l -> P rec = true ->
  (forall k' r', (k', r') ∈ l -> P r' = true -> k' = k) ->
  List.filter P (map snd l) = [rec].
Proof.
  induction l as [| [k0 r0] l IH]; intros Hnd Hin HP Huniq.
  - by apply elem_of_nil in Hin.
  - cbn [map snd List.filter]. rewrite fmap_cons in Hnd. cbn [fst] in Hnd.
    apply NoDup_cons in Hnd as [Hk0 Hnd].
    apply elem_of_cons in Hin as [[= <- <-] | Hin].
    + rewrite HP. f_equal. apply filter_items_none.
      intros k' r' Hin'. destruct (P r') eqn:HP'; [| reflexivity].
      exfalso. apply Hk0.
      rewrite (Huniq k' r' (list_elem_of_further _ _ _ Hin') HP') in Hin'.
      apply (list_elem_of_fmap_2 fst) in Hin'. exact Hin'.
    + destruct (P r0) eqn:HP0.
      * exfalso. apply Hk0.
        rewrite (Huniq k0 r0 (list_elem_of_here _ _) HP0).
        apply (list_elem_of_fmap_2 fst) in Hin. exact Hin.
      * apply IH; try assumption.
        intros k' r' Hin'. apply Huniq. by apply list_elem_of_further.
Qed.

Lemma filter_items_sound (P : Item -> bool) (l : list (string * Item)) r :
  In r (List.filter P (map snd l)) -> exists k, (k, r) ∈ l /\ P r = true.
Proof.
  intros Hin. apply List.filter_In in Hin as [Hin HP].
  apply in_map_iff in Hin as ([k r'] & Heq & Hin). cbn in Heq. subst r'.
  exists k. split; [| exact HP]. apply list_elem_of_In. exact Hin.
Qed.

Lemma ddb_query_status e d t :
  ddb_query (status_query e d) t
  = inr (List.filter (has_email_dob e d) (map snd (map_to_list t))).
Proof. reflexivity. Qed.

Lemma ddb_query_details i t :
  ddb_query (details_query i) t
  = inr (List.filter
           (matches (QueryValues (details_query i))
                    (KeyConditionExpression (details_query i)))
           (map snd (map_to_list t))).
Proof. reflexivity. Qed.

Lemma matches_details_wf i t k r :
  wf_table t -> t !! k = Some r ->
  matches (QueryValues (details_query i))
          (KeyConditionExpression (details_query i)) r = true ->
  k = i.
Proof.
  intros Hwf Hk. specialize (Hwf k r Hk). cbn in Hwf. unfold has_id in Hwf.
  cbn. destruct (r !! "id") as [[s | | | | |] |]; try discriminate.
  apply String.eqb_eq in Hwf. subst s.
  rewrite andb_true_r. intros H. apply String.eqb_eq in H. congruence.
Qed.

Lemma matches_details_self i t r :
  wf_table t -> t !! i = Some r ->
  matches (QueryValues (details_query i))
          (KeyConditionExpression (details_query i)) r = true.
Proof.
  intros Hwf Hk. specialize (Hwf i r Hk). cbn in Hwf. unfold has_id in Hwf.
  cbn. destruct (r !! "id") as [[s | | | | |] |]; try discriminate.
  apply String.eqb_eq in Hwf. subst s.
  rewrite String.eqb_refl. reflexivity.
Qed.

Lemma has_email_dob_fields e d r :
  has_email_dob e d r = true <->
  r !! "email" = Some (AV_S e) /\ r !! "dob" = Some (AV_S d).
Proof.
  unfold has_email_dob. cbn.
  destruct (r !! "email") as [[s1 | | | | |] |];
    try (split; [discriminate | intros [H _]; discriminate]).
  destruct (r !! "dob") as [[s2 | | | | |] |];
    try (split; [intros H; destruct (String.eqb e s1); discriminate
                | intros [_ H]; discriminate]).
  rewrite andb_true_r, andb_true_iff, !String.eqb_eq.
  split; [intros [-> ->]; auto | intros [[= ->] [= ->]]; auto].
Qed.

(** X1: a request to either route with a query parameter missing or
    empty is refused with the invalid-input exception before anything
    happens: nothing is sent to the store and nothing is logged.  The
    route taking [id] answers with the message about email and date of
    birth. *)
Theorem missing_query_parameter_is_refused email dob id w :
  controller_getUserDetails None dob w = (Throw invalid_input, w)
  /\ controller_getUserDetails (Some "") dob w = (Throw invalid_input, w)
  /\ controller_getUserDetails email None w = (Throw invalid_input, w)
  /\ controller_getUserDetails email (Some "") w = (Throw invalid_input, w)
  /\ controller_getEntireUserDetails None w = (Throw invalid_input, w)
  /\ controller_getEntireUserDetails (Some "") w = (Throw invalid_input, w)
  /\ (falsy_str id = false ->
      fst (controller_getEntireUserDetails id w) <> Throw invalid_input).
Proof.
  unfold controller_getUserDetails, controller_getEntireUserDetails.
  repeat split; try reflexivity.
  - unfold getUserStatus, bind, throw_if.
    destruct (falsy_str email); reflexivity.
  - unfold getUserStatus, bind, throw_if.
    destruct (falsy_str email); reflexivity.
  - intros Hid H.
    destruct id as [i |]; [| discriminate]. cbn in Hid.
    apply String.eqb_neq in Hid.
    rewrite (getEntireUserDetails_unfold i w Hid) in H.
    destruct (store_result _ w) as [name | [t' [[| u l] |]]]; discriminate.
Qed.

Lemma missing_query_parameter_is_refused_witness :
  fst (controller_getEntireUserDetails (Some "abc") world_abc)
  <> Throw invalid_input.
Proof.
  exact (proj2 (proj2 (proj2 (proj2 (proj2 (proj2
           (missing_query_parameter_is_refused None None (Some "abc")
              world_abc)))))) eq_refl).
Defined.

Lemma getUserStatus_world email dob w :
  snd (getUserStatus email dob w) = w
  \/ exists e d,
       email = Some e /\ dob = Some d
       /\ (snd (getUserStatus email dob w)
           = sent (QueryCommand (status_query e d)) w
           \/ exists a,
                snd (getUserStatus email dob w)
                = log_to ERROR "Error checking user status:" a
                    (sent (QueryCommand (status_query e d)) w)).
Proof.
  destruct email as [e |]; [| left; reflexivity].
  destruct (String.eqb e "") eqn:He.
  { left. unfold getUserStatus, bind, throw_if. cbn [falsy_str].
    rewrite He. reflexivity. }
  destruct dob as [d |].
  2:{ left. unfold getUserStatus, bind, throw_if. cbn [falsy_str].
      rewrite He. reflexivity. }
  destruct (String.eqb d "") eqn:Hd.
  { left. unfold getUserStatus, bind, throw_if. cbn [falsy_str].
    rewrite He, Hd. reflexivity. }
  apply String.eqb_neq in He, Hd.
  right. exists e, d. split; [reflexivity |]. split; [reflexivity |].
  rewrite (getUserStatus_unfold e d w He Hd).
  destruct (store_result _ w) as [name | [t' [[| u l] |]]]; cbn [snd]; eauto.
  destruct (attr_S u "id"); [destruct (attr_S u "status") |]; cbn [snd]; eauto.
Qed.

Lemma getEntireUserDetails_world id w :
  snd (getEntireUserDetails id w) = w
  \/ exists i,
       id = Some i
       /\ (snd (getEntireUserDetails id w)
           = sent (QueryCommand (details_query i)) w
           \/ exists a,
                snd (getEntireUserDetails id w)
                = log_to ERROR "Error checking user status:" a
                    (sent (QueryCommand (details_query i)) w)).
Proof.
  destruct id as [i |]; [| left; reflexivity].
  destruct (String.eqb i "") eqn:Hi.
  { left. unfold getEntireUserDetails, bind, throw_if. cbn [falsy_str].
    rewrite Hi. reflexivity. }
  apply String.eqb_neq in Hi.
  right. exists i. split; [reflexivity |].
  rewrite (getEntireUserDetails_unfold i w Hi).
  destruct (store_result _ w) as [name | [t' [[| u l] |]]]; cbn [snd]; eauto.
Qed.

(** X2: the two read operations only read.  In every world and for
    every argument they leave the table, the queue and the pending polls
    as they were, draw no identifier, and send the store at most one
    command, which is a query. *)
Theorem read_operations_only_read email dob id w :
  let w1 := snd (getUserStatus email dob w) in
  let w2 := snd (getEntireUserDetails id w) in
  (table w1 = table w /\ sqs_view w1 = sqs_view w
   /\ uuid_calls w1 = uuid_calls w
   /\ (ddb_sent w1 = ddb_sent w
       \/ exists q, ddb_sent w1 = (ddb_sent w ++ [QueryCommand q])%list))
  /\ (table w2 = table w /\ sqs_view w2 = sqs_view w
      /\ uuid_calls w2 = uuid_calls w
      /\ (ddb_sent w2 = ddb_sent w
          \/ exists q, ddb_sent w2 = (ddb_sent w ++ [QueryCommand q])%list)).
Proof.
  cbv zeta. split.
  - destruct (getUserStatus_world email dob w)
      as [-> | (e & d & _ & _ & [-> | [a ->]])];
      repeat split; eauto.
  - destruct (getEntireUserDetails_world id w)
      as [-> | (i & _ & [-> | [a ->]])];
      repeat split; eauto.
Qed.

Lemma getEntireUserDetails_lookup i w :
  i <> "" -> wf_table (table w) -> store_up w = true ->
  fst (getEntireUserDetails (Some i) w)
  = match table w !! i with
    | Some rec => Ok rec
    | None => Throw lookup_failed
    end.
Proof.
  intros Hi Hwf Hup. rewrite (getEntireUserDetails_unfold i w Hi).
  rewrite store_result_query, Hup, ddb_query_details.
  destruct (table w !! i) as [rec |] eqn:Hrec.
  - rewrite (filter_items_unique _ (map_to_list (table w)) i rec).
    + reflexivity.
    + apply NoDup_fst_map_to_list.
    + apply elem_of_map_to_list. exact Hrec.
    + exact (matches_details_self i _ rec Hwf Hrec).
    + intros k' r' Hin HP. apply elem_of_map_to_list in Hin.
      exact (matches_details_wf i _ k' r' Hwf Hin HP).
  - rewrite filter_items_none; [reflexivity |].
    intros k r Hin. apply elem_of_map_to_list in Hin.
    destruct (matches _ _ r) eqn:HP; [| reflexivity].
    rewrite (matches_details_wf i _ k r Hwf Hin HP) in Hin. congruence.
Qed.

(** X3: with a well-formed table and the store answering,
    [getEntireUserDetails] returns exactly the record stored under the
    id, and fails with the lookup failure when there is none. *)
Theorem getEntireUserDetails_returns_the_record i w :
  i <> "" -> wf_table (table w) -> store_up w = true ->
  fst (getEntireUserDetails (Some i) w)
  = match table w !! i with
    | Some rec => Ok rec
    | None => Throw lookup_failed
    end.
Proof. exact (getEntireUserDetails_lookup i w). Qed.

Lemma getEntireUserDetails_returns_the_record_witness :
  fst (getEntireUserDetails (Some "abc") world_abc) = Ok record_abc
  /\ fst (getEntireUserDetails (Some "zzz") world_abc) = Throw lookup_failed.
Proof.
  split.
  - exact (getEntireUserDetails_returns_the_record "abc" world_abc
             ltac:(discriminate) wf_table_world_abc eq_refl).
  - exact (getEntireUserDetails_returns_the_record "zzz" world_abc
             ltac:(discriminate) wf_table_world_abc eq_refl).
Defined.

Lemma getUserStatus_sound email dob w id st :
  fst (getUserStatus email dob w) = Ok (id, st) ->
  exists e d k rec,
    email = Some e /\ dob = Some d /\ e <> "" /\ d <> ""
    /\ table w !! k = Some rec
    /\ rec !! "email" = Some (AV_S e) /\ rec !! "dob" = Some (AV_S d)
    /\ attr_S rec "id" = Some id /\ attr_S rec "status" = Some st.
Proof.
  destruct email as [e |]; [| discriminate].
  destruct (String.eqb e "") eqn:He.
  { unfold getUserStatus, bind, throw_if. cbn [falsy_str]. rewrite He.
    discriminate. }
  destruct dob as [d |].
  2:{ unfold getUserStatus, bind, throw_if. cbn [falsy_str]. rewrite He.
      discriminate. }
  destruct (String.eqb d "") eqn:Hd.
  { unfold getUserStatus, bind, throw_if. cbn [falsy_str]. rewrite He, Hd.
    discriminate. }
  apply String.eqb_neq in He, Hd.
  rewrite (getUserStatus_unfold e d w He Hd), store_result_query.
  destruct (store_up w); [| discriminate].
  rewrite ddb_query_status.
  destruct (List.filter _ _) as [| u l] eqn:Hf; [discriminate |].
  destruct (attr_S u "id") as [id' |] eqn:Hid; [| discriminate].
  destruct (attr_S u "status") as [st' |] eqn:Hst; [| discriminate].
  intros [= <- <-].
  destruct (filter_items_sound (has_email_dob e d) (map_to_list (table w)) u)
    as (k & Hin & HP).
  { rewrite Hf. left. reflexivity. }
  apply elem_of_map_to_list in Hin.
  apply has_email_dob_fields in HP as [H1 H2].
  exists e, d, k, u. repeat split; assumption.
Qed.

(** X4: what [getUserStatus] returns is read from a stored record with
    that email and that date of birth: its [id] and [status], each
    [undefined] when the attribute is not a string. *)
Theorem getUserStatus_returns_a_matching_record email dob w id st :
  fst (getUserStatus email dob w) = Ok (id, st) ->
  exists e d k rec,
    email = Some e /\ dob = Some d /\ e <> "" /\ d <> ""
    /\ table w !! k = Some rec
    /\ rec !! "email" = Some (AV_S e) /\ rec !! "dob" = Some (AV_S d)
    /\ attr_S rec "id" = Some id /\ attr_S rec "status" = Some st.
Proof. exact (getUserStatus_sound email dob w id st). Qed.

Lemma getUserStatus_returns_a_matching_record_witness :
  exists e d k rec,
    Some "jane@x.com" = Some e /\ Some "1990-01-01" = Some d
    /\ e <> "" /\ d <> ""
    /\ table world_abc !! k = Some rec
    /\ rec !! "email" = Some (AV_S e) /\ rec !! "dob" = Some (AV_S d)
    /\ attr_S rec "id" = Some (Some "abc")
    /\ attr_S rec "status" = Some (Some "active").
Proof.
  apply (getUserStatus_returns_a_matching_record (Some "jane@x.com")
           (Some "1990-01-01") world_abc (Some "abc") (Some "active")).
  vm_compute. reflexivity.
Defined.

Lemma getUserStatus_unique e d k rec w :
  e <> "" -> d <> "" -> wf_table (table w) -> store_up w = true ->
  table w !! k = Some rec ->
  rec !! "email" = Some (AV_S e) -> rec !! "dob" = Some (AV_S d) ->
  (forall k' r', table w !! k' = Some r' ->
                 has_email_dob e d r' = true -> k' = k) ->
  fst (getUserStatus (Some e) (Some d) w)
  = match attr_S rec "status" with
    | Some st => Ok (Some k, st)
    | None => Throw lookup_failed
    end.
Proof.
  intros He Hd Hwf Hup Hrec Hem Hdob Huniq.
  rewrite (getUserStatus_unfold e d w He Hd), store_result_query, Hup.
  rewrite ddb_query_status.
  rewrite (filter_items_unique _ (map_to_list (table w)) k rec).
  - assert (Hid : attr_S rec "id" = Some (Some k)).
    { specialize (Hwf k rec Hrec). cbn in Hwf. unfold has_id in Hwf.
      unfold attr_S. destruct (rec !! "id") as [[s | | | | |] |];
        try discriminate.
      apply String.eqb_eq in Hwf. congruence. }
    rewrite Hid. destruct (attr_S rec "status"); reflexivity.
  - apply NoDup_fst_map_to_list.
  - apply elem_of_map_to_list. exact Hrec.
  - apply has_email_dob_fields. split; assumption.
  - intros k' r' Hin. apply elem_of_map_to_list in Hin. exact (Huniq k' r' Hin).
Qed.

(** X5: with a well-formed table and the store answering, when exactly
    one record has the email and date of birth asked for,
    [getUserStatus] returns the key of that record and its status; it
    fails with the lookup failure when that record has no [status]. *)
Theorem getUserStatus_finds_the_unique_match e d k rec w :
  e <> "" -> d <> "" -> wf_table (table w) -> store_up w = true ->
  table w !! k = Some rec ->
  rec !! "email" = Some (AV_S e) -> rec !! "dob" = Some (AV_S d) ->
  (forall k' r', table w !! k' = Some r' ->
                 has_email_dob e d r' = true -> k' = k) ->
  fst (getUserStatus (Some e) (Some d) w)
  = match attr_S rec "status" with
    | Some st => Ok (Some k, st)
    | None => Throw lookup_failed
    end.
Proof. exact (getUserStatus_unique e d k rec w). Qed.

Lemma getUserStatus_finds_the_unique_match_witness :
  fst (getUserStatus (Some "jane@x.com") (Some "1990-01-01") world_abc)
  = Ok (Some "abc", Some "active").
Proof.
  apply (getUserStatus_finds_the_unique_match "jane@x.com" "1990-01-01" "abc"
           record_abc world_abc);
    try discriminate; try reflexivity.
  - exact wf_table_world_abc.
  - intros k' r' Hk _. unfold world_abc in Hk. cbn [table set_table] in Hk.
    destruct (decide (k' = "abc")) as [-> | Hne]; [reflexivity |].
    rewrite lookup_insert_ne in Hk by congruence.
    rewrite lookup_empty in Hk. discriminate.
Defined.

(** ** More on the dispatcher *)

(** X6: the dispatcher never touches the queue: whatever the message and
    the world, it sends no queue command, consumes nothing of what the
    queue will deliver and schedules no poll. *)
Theorem dispatcher_leaves_the_queue_alone env m w :
  let w' := snd (handleUserEvent env m w) in
  sqs_sent w' = sqs_sent w /\ sqs_inbox w' = sqs_inbox w
  /\ sqs_delete_faults w' = sqs_delete_faults w /\ timers w' = timers w.
Proof.
  cbv zeta. pose proof (keeps_sqs_handleUserEvent env m w) as Hk.
  unfold sqs_view in Hk. injection Hk as Hi Hf Hs Ht. auto.
Qed.

Lemma command_of_is_write env user op w c :
  command_of env user op w = Some c ->
  is_query c = false /\ is_Some (new_item env user w).
Proof.
  unfold command_of. destruct (new_item env user w) as [item |]; [| discriminate].
  intros H. split; [| eauto].
  destruct (strict_eq_str op "create"); [injection H as <-; reflexivity |].
  destruct (strict_eq_str op "update").
  { destruct (truthy (prop user "id")); [| discriminate].
    destruct (marshall [("id", prop user "id")]); [| discriminate].
    injection H as <-. reflexivity. }
  destruct (strict_eq_str op "updateStatus"); [| discriminate].
  destruct (truthy (prop user "id")); [| discriminate].
  destruct (marshall [("id", prop user "id")]); [| discriminate].
  injection H as <-. reflexivity.
Qed.

(** X7: one message makes the dispatcher send the store at most one
    command, never a query; without a command the table stays as it
    was. *)
Theorem dispatcher_sends_at_most_one_write env m w :
  let w' := snd (handleUserEvent env m w) in
  (ddb_sent w' = ddb_sent w /\ table w' = table w
   /\ ddb_faults w' = ddb_faults w)
  \/ (exists c, ddb_sent w' = (ddb_sent w ++ [c])%list
        /\ is_query c = false /\ ddb_faults w' = tail (ddb_faults w)).
Proof.
  cbv zeta. pose proof (handleUserEvent_effect env m w) as He.
  cbv zeta in He. unfold event_command in He.
  destruct (parse_event env m) as [[user op] |].
  - destruct (command_of env user op w) as [c |] eqn:Hc.
    + right. exists c. destruct He as (Hs & Hf & _).
      split; [exact Hs |].
      split; [exact (proj1 (command_of_is_write _ _ _ _ _ Hc)) | exact Hf].
    + left. tauto.
  - left. tauto.
Qed.



Lemma create_other_keys env m user w k :
  parse_event env m = Some (user, Some (JStr "create")) ->
  k <> uuid_at env (uuid_calls w) ->
  table (snd (handleUserEvent env m w)) !! k = table w !! k.
Proof.
  intros Hp Hk.
  pose proof (handleUserEvent_effect env m w) as He. cbv zeta in He.
  unfold event_command in He. rewrite Hp in He.
  destruct (command_of env user (Some (JStr "create")) w) as [c |] eqn:Hc.
  - apply command_of_create in Hc as (item & Hit & ->).
    destruct He as (_ & _ & He). unfold store_result in He.
    destruct (store_up w); [| destruct He as [-> _]; reflexivity].
    cbn [ddb_exec] in He. unfold ddb_put, key_of in He.
    rewrite (proj1 (new_item_fields env user item w Hit)) in He.
    rewrite He. apply lookup_insert_ne. congruence.
  - destruct He as (-> & _). reflexivity.
Qed.

(** X9: a [create] can change the table at one key only, the identifier
    it has just drawn: every record stored under another key is left as
    it was, in every world. *)
Theorem create_changes_only_the_new_key env m user w k :
  parse_event env m = Some (user, Some (JStr "create")) ->
  k <> uuid_at env (uuid_calls w) ->
  table (snd (handleUserEvent env m w)) !! k = table w !! k.
Proof. exact (create_other_keys env m user w k). Qed.

Lemma create_changes_only_the_new_key_witness :
  table (snd (handleUserEvent demo_env (msg body_create_john) world_abc)) !! "abc"
  = Some record_abc.
Proof.
  rewrite (create_changes_only_the_new_key demo_env (msg body_create_john)
             user_john world_abc "abc" eq_refl ltac:(discriminate)).
  reflexivity.
Defined.

(** X10: a [create] the store fails is not an error of the dispatch:
    the inner [catch] logs "Error creating user in DynamoDB" with the
    store's exception and does not throw again, so the [try] ends
    normally, the outer [catch] logs nothing, and the table is as it
    was. *)
Theorem failed_create_is_logged_once env m user item name w :
  parse_event env m = Some (user, Some (JStr "create")) ->
  new_item env user w = Some item ->
  store_result (PutItemCommand item) w = inl name ->
  let w' := log_to ERROR "Error creating user in DynamoDB"
              (ArgExn (DynamoDBException name))
              (sent (PutItemCommand item) (params_world w)) in
  handleUserEvent_try env m w = (Ok tt, w')
  /\ handleUserEvent env m w = (Ok tt, w')
  /\ table w' = table w.
Proof.
  intros Hp Hit Hs w'. subst w'.
  rewrite handleUserEvent_unfold, (handleUserEvent_try_event _ _ _ _ w Hp).
  rewrite (dispatch_create env user (Some (JStr "create")) item w eq_refl Hit), Hs.
  repeat split.
Qed.

Lemma failed_create_is_logged_once_witness :
  exists item,
    logs (snd (handleUserEvent demo_env (msg body_create_john) world_abc_down))
    = [mkLog ERROR "Error creating user in DynamoDB"
         (ArgExn (DynamoDBException "ServiceUnavailable"))]
    /\ ddb_sent (snd (handleUserEvent demo_env (msg body_create_john)
                        world_abc_down))
       = [PutItemCommand item].
Proof.
  destruct (new_item_valid demo_env user_john world_abc_down eq_refl)
    as [item Hit].
  exists item.
  destruct (failed_create_is_logged_once demo_env (msg body_create_john)
              user_john item "ServiceUnavailable" world_abc_down
              eq_refl Hit eq_refl) as (_ & -> & _).
  split; reflexivity.
Defined.

(** X11: an [update] or [updateStatus] the store fails is logged twice
    and the second entry hides the cause: the inner [catch] logs "Error
    updating user in DynamoDB" with the store's exception and throws
    "Failed to update user", which the outer [catch] logs.  The table is
    as it was. *)
Theorem failed_update_is_logged_twice env m user op c name w :
  parse_event env m = Some (user, Some (JStr op)) ->
  op = "update" \/ op = "updateStatus" ->
  event_command env m w = Some c ->
  store_result c w = inl name ->
  let w' := log_to ERROR "Error updating user in DynamoDB"
              (ArgExn (DynamoDBException name)) (sent c (update_world w)) in
  handleUserEvent_try env m w
  = (Throw (BadRequestException "Failed to update user"), w')
  /\ handleUserEvent env m w
     = caught (BadRequestException "Failed to update user") w'
  /\ table (snd (handleUserEvent env m w)) = table w.
Proof.
  intros Hp Hop Hc Hs w'. subst w'. unfold event_command in Hc.
  rewrite Hp in Hc.
  destruct (command_of_is_write _ _ _ _ _ Hc) as [_ [item Hit]].
  rewrite handleUserEvent_unfold, (handleUserEvent_try_event _ _ _ _ w Hp).
  destruct Hop as [-> | ->].
  - apply command_of_update in Hc as (key & Hkey & Hid & ->).
    pose proof (dispatch_update env user (Some (JStr "update")) item key w eq_refl
                  Hit Hid Hkey)
      as Hd. cbv zeta in Hd. rewrite Hd, Hs. repeat split.
  - apply command_of_updateStatus in Hc as (key & Hkey & Hid & ->).
    pose proof (dispatch_updateStatus env user (Some (JStr "updateStatus")) item
                  key w eq_refl Hit Hid Hkey)
      as Hd. cbv zeta in Hd. rewrite Hd, Hs. repeat split.
Qed.

(** Example 3 of the specification, with what is logged. *)
Lemma failed_update_is_logged_twice_witness :
  logs (snd (handleUserEvent demo_env (msg body_update_missing) world_abc))
  = [ mkLog ERROR "Error updating user in DynamoDB"
        (ArgExn (DynamoDBException "ConditionalCheckFailedException"));
      mkLog ERROR "Error handling SQS message:"
        (ArgExn (BadRequestException "Failed to update user")) ].
Proof.
  assert (Hs : store_result
                 (UpdateItemCommand
                    (update_input user_update_missing
                       (update_time demo_env world_abc)
                       {["id" := AV_S "missing-id"]})) world_abc
               = inl "ConditionalCheckFailedException")
    by (vm_compute; reflexivity).
  assert (Hc : event_command demo_env (msg body_update_missing) world_abc
               = Some (UpdateItemCommand
                         (update_input user_update_missing
                            (update_time demo_env world_abc)
                            {["id" := AV_S "missing-id"]})))
    by (vm_compute; reflexivity).
  destruct (failed_update_is_logged_twice demo_env (msg body_update_missing)
              user_update_missing "update" _
              "ConditionalCheckFailedException" world_abc
              eq_refl (or_introl eq_refl) Hc Hs)
    as (_ & Hh & _).
  rewrite Hh. reflexivity.
Defined.

(** X12: what the log says of a message the dispatcher gives up on.  A
    missing or empty body, a body that is not JSON, the body [null], a
    body without [user] or [operation]: each is logged by the outer
    [catch] with its own exception and nothing else happens.  An
    [update] or [updateStatus] without [user.id] is given up only after
    [params] has been built, with an [Error] for the one and a
    [BadRequestException] for the other. *)
Theorem abandoned_message_is_logged_with_its_cause env m w :
  (falsy_str (Body m) = true ->
   handleUserEvent env m w = caught (JsError "Message body is missing") w)
  /\ (forall s, Body m = Some s -> s <> "" -> JSON_parse env s = None ->
        handleUserEvent env m w = caught SyntaxError w)
  /\ (forall s, Body m = Some s -> s <> "" -> JSON_parse env s = Some JNull ->
        handleUserEvent env m w = caught TypeError w)
  /\ (forall s body,
        Body m = Some s -> s <> "" -> JSON_parse env s = Some body ->
        body <> JNull ->
        truthy (prop body "user") && truthy (prop body "operation") = false ->
        handleUserEvent env m w = caught (JsError "Invalid message structure") w)
  /\ (forall user,
        parse_event env m = Some (user, Some (JStr "update")) ->
        is_Some (new_item env user w) ->
        truthy (prop user "id") = false ->
        handleUserEvent env m w
        = caught (JsError "Correct ID required for update operation")
            (params_world w))
  /\ (forall user,
        parse_event env m = Some (user, Some (JStr "updateStatus")) ->
        is_Some (new_item env user w) ->
        truthy (prop user "id") = false ->
        handleUserEvent env m w
        = caught (BadRequestException "ID required for status update operation")
            (params_world w)).
Proof.
  split.
  { intros Hb. rewrite handleUserEvent_unfold. unfold handleUserEvent_try.
    unfold bind at 1. unfold throw_if. rewrite Hb. reflexivity. }
  split.
  { intros s Hb Hs Hj. apply String.eqb_neq in Hs.
    rewrite handleUserEvent_unfold. unfold handleUserEvent_try.
    unfold bind, throw_if, or_throw, ret, throw. rewrite Hb.
    cbn [default from_option id falsy_str]. rewrite Hs, Hj. reflexivity. }
  split.
  { intros s Hb Hs Hj. apply String.eqb_neq in Hs.
    rewrite handleUserEvent_unfold. unfold handleUserEvent_try.
    unfold bind, throw_if, or_throw, ret, throw. rewrite Hb.
    cbn [default from_option id falsy_str]. rewrite Hs, Hj. reflexivity. }
  split.
  { intros s body Hb Hs Hj Hnull Ht. apply String.eqb_neq in Hs.
    rewrite handleUserEvent_unfold. unfold handleUserEvent_try.
    unfold bind, throw_if, or_throw, ret, throw. rewrite Hb.
    cbn [default from_option id falsy_str]. rewrite Hs, Hj.
    destruct body; try congruence;
      apply andb_false_iff in Ht;
      rewrite <- negb_true_iff, <- (negb_true_iff (truthy (prop _ "operation")))
        in Ht;
      apply orb_true_iff in Ht; rewrite Ht; reflexivity. }
  split.
  { intros user Hp [item Hit] Hid.
    rewrite handleUserEvent_unfold, (handleUserEvent_try_event _ _ _ _ w Hp).
    unfold new_item in Hit. unfold dispatch. run_monad.
    cbn [uuid_calls date_calls set_uuid_calls set_date_calls].
    rewrite Hit. cbn [strict_eq_str].
    replace (String.eqb "update" "create") with false by reflexivity.
    replace (String.eqb "update" "update") with true by reflexivity.
    rewrite Hid. reflexivity. }
  intros user Hp [item Hit] Hid.
  rewrite handleUserEvent_unfold, (handleUserEvent_try_event _ _ _ _ w Hp).
  unfold new_item in Hit. unfold dispatch. run_monad.
  cbn [uuid_calls date_calls set_uuid_calls set_date_calls].
  rewrite Hit. cbn [strict_eq_str].
  replace (String.eqb "updateStatus" "create") with false by reflexivity.
  replace (String.eqb "updateStatus" "update") with false by reflexivity.
  replace (String.eqb "updateStatus" "updateStatus") with true by reflexivity.
  rewrite Hid. reflexivity.
Qed.

Lemma abandoned_message_is_logged_with_its_cause_witness :
  handleUserEvent demo_env_more (msg body_null) world_abc
  = caught TypeError world_abc
  /\ handleUserEvent demo_env (msg body_empty_object) world_abc
     = caught (JsError "Invalid message structure") world_abc
  /\ handleUserEvent demo_env (msg body_update_no_id) world_abc
     = caught (JsError "Correct ID required for update operation")
         (params_world world_abc).
Proof.
  split.
  { destruct (abandoned_message_is_logged_with_its_cause demo_env_more
                (msg body_null) world_abc) as (_ & _ & H & _).
    apply (H body_null); [reflexivity | discriminate | reflexivity]. }
  split.
  { destruct (abandoned_message_is_logged_with_its_cause demo_env
                (msg body_empty_object) world_abc) as (_ & _ & _ & H & _).
    apply (H body_empty_object (JObj []));
      [reflexivity | discriminate | reflexivity | discriminate | reflexivity]. }
  destruct (abandoned_message_is_logged_with_its_cause demo_env
              (msg body_update_no_id) world_abc) as (_ & _ & _ & _ & H & _).
  apply (H user_update_no_id);
    [reflexivity | apply new_item_valid; reflexivity | reflexivity].
Defined.

(** ** More on the consume loop *)

Lemma attempted_nil n : attempted n [] = n.
Proof. destruct n; reflexivity. Qed.

Lemma attempted_le n faults : (attempted n faults <= n)%nat.
Proof.
  revert faults. induction n as [| n IH]; intros faults; cbn; [lia |].
  destruct faults as [| [|] f]; [lia | lia |]. specialize (IH f). lia.
Qed.

Lemma attempted_no_fault n faults :
  any_fault n faults = false -> attempted n faults = n.
Proof.
  unfold any_fault. revert faults.
  induction n as [| n IH]; intros faults; [reflexivity |].
  destruct faults as [| [|] f]; cbn; [reflexivity | discriminate |].
  intros H. rewrite IH; [reflexivity | exact H].
Qed.

Lemma for_of_process_world env msgs w :
  snd (for_of msgs (process_message env) w)
  = run_batch env (take (attempted (length msgs) (sqs_delete_faults w)) msgs) w.
Proof.
  revert w. induction msgs as [| m r IH]; intros w; [reflexivity |].
  cbn [for_of length attempted]. unfold bind.
  pose proof (process_message_effect env m w) as Hm. cbv zeta in Hm.
  destruct Hm as (Hr & _ & _ & Hf & _). unfold any_fault in Hr.
  destruct (process_message env m w) as [[[] | e] w1] eqn:Hpm;
    cbn [fst snd] in *.
  - rewrite IH, Hf.
    destruct (sqs_delete_faults w) as [| [|] f]; cbn in Hr; try discriminate.
    + cbn [tail]. rewrite attempted_nil. cbn [take run_batch fold_left].
      rewrite Hpm. cbn [snd]. rewrite firstn_all. reflexivity.
    + cbn [tail take run_batch fold_left]. rewrite Hpm. reflexivity.
  - destruct (sqs_delete_faults w) as [| [|] f]; cbn in Hr; try discriminate.
    cbn [take run_batch fold_left]. rewrite Hpm. reflexivity.
Qed.

Lemma run_batch_sqs_sent env msgs w :
  sqs_sent (run_batch env msgs w) = (sqs_sent w ++ map delete_of msgs)%list.
Proof.
  revert w. induction msgs as [| m r IH]; intros w; cbn [run_batch fold_left map].
  - rewrite app_nil_r. reflexivity.
  - fold (run_batch env r (snd (process_message env m w))). rewrite IH.
    destruct (process_message_effect env m w) as (_ & _ & _ & _ & ->).
    rewrite <- app_assoc. reflexivity.
Qed.

Lemma pollQueue_batch_world env w m ms rest :
  sqs_inbox w = RecvResponse (Some (m :: ms)) :: rest ->
  let batch := take 10 (m :: ms) in
  let w1 := run_batch env
              (take (attempted (length batch) (sqs_delete_faults w)) batch)
              (received w) in
  table (snd (pollQueue env w)) = table w1
  /\ ddb_sent (snd (pollQueue env w)) = ddb_sent w1
  /\ sqs_sent (snd (pollQueue env w)) = sqs_sent w1.
Proof.
  intros Hin batch w1. subst batch w1. rewrite pollQueue_unfold, Hin.
  pose proof (for_of_process_world env (take 10 (m :: ms)) (received w)) as Hw.
  change (sqs_delete_faults (received w)) with (sqs_delete_faults w) in Hw.
  destruct (for_of (take 10 (m :: ms)) (process_message env) (received w))
    as [[[] | e] w2]; cbn [snd] in *; rewrite <- Hw; repeat split.
Qed.

(** X13: the messages of a batch are handled in the order received, each
    in the world the previous one left, and each is deleted right after
    its dispatch.  The first delete request that fails ends the batch:
    the messages after it are neither dispatched nor deleted.  Messages
    beyond the tenth are never seen. *)
Theorem batch_is_handled_in_order_until_a_delete_fails env w m ms rest :
  sqs_inbox w = RecvResponse (Some (m :: ms)) :: rest ->
  let batch := take 10 (m :: ms) in
  let done := take (attempted (length batch) (sqs_delete_faults w)) batch in
  let w' := snd (pollQueue env w) in
  table w' = table (run_batch env done (received w))
  /\ ddb_sent w' = ddb_sent (run_batch env done (received w))
  /\ sqs_sent w'
     = (sqs_sent w ++ ReceiveMessageCommand 10 20 :: map delete_of done)%list
  /\ (any_fault (length batch) (sqs_delete_faults w) = false -> done = batch)
  /\ (1 <= length done <= 10)%nat.
Proof.
  intros Hin batch done w'. subst w'.
  destruct (pollQueue_batch_world env w m ms rest Hin) as (Ht & Hd & Hs).
  fold batch in Ht, Hd, Hs. fold done in Ht, Hd, Hs.
  split; [exact Ht |]. split; [exact Hd |].
  split.
  { rewrite Hs, run_batch_sqs_sent. cbn [received sqs_sent set_sqs_inbox
      set_sqs_sent]. rewrite <- app_assoc. reflexivity. }
  split.
  { intros Hno. subst done. rewrite (attempted_no_fault _ _ Hno).
    apply firstn_all. }
  subst done. rewrite length_take.
  pose proof (attempted_le (length batch) (sqs_delete_faults w)) as Hle.
  assert (Hb : (1 <= length batch <= 10)%nat).
  { subst batch. rewrite length_take. cbn [length]. lia. }
  assert (Ha : (1 <= attempted (length batch) (sqs_delete_faults w))%nat).
  { destruct (length batch) as [| n] eqn:Hl; [lia |]. cbn.
    destruct (sqs_delete_faults w) as [| [|] f]; lia. }
  lia.
Qed.

(** A [create] and an [update] arrive together and the delete of the
    first fails: the create is stored and deleted from the queue, the
    update is neither applied nor deleted. *)
Lemma batch_is_handled_in_order_until_a_delete_fails_witness :
  let w' := snd (pollQueue demo_env world_two_messages) in
  sqs_sent w' = [ReceiveMessageCommand 10 20; DeleteMessageCommand (Some "rh-1")]
  /\ length (ddb_sent w') = 1%nat
  /\ field (table w') "abc" "firstName" = Some (AV_S "Janet").
Proof.
  cbv zeta.
  destruct (batch_is_handled_in_order_until_a_delete_fails demo_env
              world_two_messages (msg_with body_create_john "rh-1")
              [msg_with body_update_abc "rh-2"] [] eq_refl)
    as (Ht & Hd & Hs & _).
  rewrite Hs, Hd, Ht. repeat split; vm_compute; reflexivity.
Defined.

(** ** What the running service keeps *)

Section TableInvariant.

Variable env : Env.
Variable P : gmap string Item -> Prop.
Hypothesis dispatch_keeps :
  forall m w, P (table w) -> P (table (snd (handleUserEvent env m w))).

Lemma process_message_keeps m w :
  P (table w) -> P (table (snd (process_message env m w))).
Proof.
  intros H. rewrite process_message_unfold. unfold sqsClient_delete.
  destruct (sqs_delete_faults _) as [| [|] f]; cbn [snd table set_sqs_sent
    set_sqs_delete_faults]; apply dispatch_keeps; exact H.
Qed.

Lemma run_batch_keeps msgs w :
  P (table w) -> P (table (run_batch env msgs w)).
Proof.
  revert w. induction msgs as [| m r IH]; intros w H; [exact H |].
  cbn [run_batch fold_left]. apply IH, process_message_keeps, H.
Qed.

Lemma pollQueue_keeps w : P (table w) -> P (table (snd (pollQueue env w))).
Proof.
  intros H. destruct (sqs_inbox w) as [| [| [[| m ms] |]] inbox] eqn:Hin;
    try (rewrite pollQueue_unfold, Hin; exact H).
  destruct (pollQueue_batch_world env w m ms inbox Hin) as (-> & _).
  apply run_batch_keeps. exact H.
Qed.

Lemma event_loop_keeps n w : P (table w) -> P (table (event_loop env n w)).
Proof.
  revert w. induction n as [| n IH]; intros w H; [exact H |].
  cbn [event_loop]. destruct (timers w) as [| d r]; [exact H |].
  apply IH, pollQueue_keeps. exact H.
Qed.

End TableInvariant.

Lemma ddb_exec_keeps_records c t t' items k :
  ddb_exec c t = inr (t', items) -> is_Some (t !! k) -> is_Some (t' !! k).
Proof.
  intros Hx Hk. destruct c as [item | inp | q]; cbn [ddb_exec] in Hx.
  - unfold ddb_put in Hx. destruct (key_of item) as [k0 |]; [| discriminate].
    injection Hx as <- _. destruct (decide (k0 = k)) as [-> | Hne].
    + rewrite lookup_insert_eq. eauto.
    + rewrite lookup_insert_ne by exact Hne. exact Hk.
  - destruct (ddb_update inp t) as [e | t''] eqn:Hu; [discriminate |].
    injection Hx as <- _.
    apply (proj1 (ddb_update_frame inp t t'' Hu)). exact Hk.
  - destruct (ddb_query q t); [discriminate |]. injection Hx as <- _. exact Hk.
Qed.

Lemma handleUserEvent_keeps_records env k m w :
  is_Some (table w !! k) -> is_Some (table (snd (handleUserEvent env m w)) !! k).
Proof.
  intros Hk.
  pose proof (handleUserEvent_effect env m w) as He. cbv zeta in He.
  destruct (event_command env m w) as [c |].
  - destruct He as (_ & _ & He). unfold store_result in He.
    destruct (store_up w).
    + destruct (ddb_exec c (table w)) as [e | [t' items]] eqn:Hx.
      * destruct He as [-> _]. exact Hk.
      * rewrite He. exact (ddb_exec_keeps_records c _ _ _ k Hx Hk).
    + destruct He as [-> _]. exact Hk.
  - destruct He as (-> & _). exact Hk.
Qed.

(** X14: the service never removes a record.  A key under which the
    table holds a record still holds one after any message is
    dispatched, after any invocation of [pollQueue] and after any
    number of turns of the loop, whatever the queue delivers and
    whatever fails. *)
Theorem records_are_never_removed env k w :
  is_Some (table w !! k) ->
  (forall m, is_Some (table (snd (handleUserEvent env m w)) !! k))
  /\ is_Some (table (snd (pollQueue env w)) !! k)
  /\ (forall n, is_Some (table (event_loop env n w) !! k)).
Proof.
  intros Hk. split; [intros m; apply handleUserEvent_keeps_records, Hk |].
  split.
  - apply (pollQueue_keeps env (fun t => is_Some (t !! k))); [| exact Hk].
    intros m w0. apply handleUserEvent_keeps_records.
  - intros n.
    apply (event_loop_keeps env (fun t => is_Some (t !! k))); [| exact Hk].
    intros m w0. apply handleUserEvent_keeps_records.
Qed.

Lemma records_are_never_removed_witness :
  is_Some (table (snd (pollQueue demo_env world_two_messages)) !! "abc").
Proof.
  apply (records_are_never_removed demo_env "abc" world_two_messages).
  exists record_abc. reflexivity.
Defined.

(** X15: the id of a record is immutable.  If every stored item carries
    its own key as its [id], this is still so after any message is
    dispatched and after any number of turns of the loop: a [create]
    stores the item under the id it writes into it, and no update
    assigns [id]. *)
Theorem stored_ids_stay_the_keys env w :
  wf_table (table w) ->
  (forall m, wf_table (table (snd (handleUserEvent env m w))))
  /\ (forall n, wf_table (table (event_loop env n w)))
  /\ (forall n k rec,
        table (event_loop env n w) !! k = Some rec ->
        rec !! "id" = Some (AV_S k)).
Proof.
  intros Hwf.
  assert (Hloop : forall n, wf_table (table (event_loop env n w))).
  { intros n. apply (event_loop_keeps env wf_table); [| exact Hwf].
    intros m w0. apply handleUserEvent_wf. }
  split; [intros m; apply handleUserEvent_wf, Hwf |].
  split; [exact Hloop |].
  intros n k rec Hk. specialize (Hloop n k rec Hk). cbn in Hloop.
  unfold has_id in Hloop.
  destruct (rec !! "id") as [[s | | | | |] |]; try discriminate.
  apply String.eqb_eq in Hloop. congruence.
Qed.

Lemma stored_ids_stay_the_keys_witness :
  wf_table (table (snd (handleUserEvent demo_env (msg body_create_john)
                          world_abc))).
Proof.
  exact (proj1 (stored_ids_stay_the_keys demo_env world_abc wf_table_world_abc)
           (msg body_create_john)).
Defined.

(** ** Writing, then reading *)

(** A dispatched [create] draws exactly one identifier. *)
Lemma create_uuid_calls env m user w :
  parse_event env m = Some (user, Some (JStr "create")) ->
  is_Some (new_item env user w) ->
  uuid_calls (snd (handleUserEvent env m w)) = S (uuid_calls w).
Proof.
  intros Hp [item Hit].
  rewrite handleUserEvent_unfold, (handleUserEvent_try_event _ _ _ _ w Hp).
  rewrite (dispatch_create env user (Some (JStr "create")) item w eq_refl Hit).
  destruct (store_result _ w) as [name | [t' items]]; reflexivity.
Qed.

(** X16: a record that a [create] has stored is what
    [getEntireUserDetails] returns for its identifier: the item carries
    that identifier and the strings of the payload. *)
Theorem created_record_is_found_by_id env m user w :
  parse_event env m = Some (user, Some (JStr "create")) ->
  valid_payload user = true ->
  wf_table (table w) ->
  then_store_up env m w ->
  uuid_at env (uuid_calls w) <> "" ->
  exists item,
    fst (getEntireUserDetails (Some (uuid_at env (uuid_calls w)))
           (snd (handleUserEvent env m w))) = Ok item
    /\ ddb_sent (snd (handleUserEvent env m w))
       = (ddb_sent w ++ [PutItemCommand item])%list
    /\ item !! "id" = Some (AV_S (uuid_at env (uuid_calls w)))
    /\ (forall f s, In f payload_fields -> prop user f = Some (JStr s) ->
          item !! f = Some (AV_S s)).
Proof.
  intros Hp Hv Hwf [Hup Hup'] Hne.
  destruct (new_item_valid env user w Hv) as [item Hit]. exists item.
  destruct (create_accepted env m user item w Hp Hit) as (_ & Hs & Ht).
  destruct (new_item_fields env user item w Hit) as (Hid & _ & _ & _ & Hf & _).
  split.
  { rewrite (getEntireUserDetails_lookup _ _ Hne (handleUserEvent_wf env m w Hwf)
               Hup').
    rewrite (Ht Hup), lookup_insert_eq. reflexivity. }
  split; [exact Hs |]. split; [exact Hid |].
  intros f s Hin Hpf. rewrite (Hf f Hin), Hpf. reflexivity.
Qed.

Lemma created_record_is_found_by_id_witness :
  exists item,
    fst (getEntireUserDetails (Some "0b7e6a7e-0000-4000-8000-000000000000")
           (snd (handleUserEvent demo_env (msg body_create_john) world_abc)))
    = Ok item
    /\ item !! "email" = Some (AV_S "john@x.com").
Proof.
  assert (Hup : then_store_up demo_env (msg body_create_john) world_abc)
    by (split; vm_compute; reflexivity).
  destruct (created_record_is_found_by_id demo_env (msg body_create_john)
              user_john world_abc eq_refl eq_refl wf_table_world_abc Hup
              ltac:(discriminate))
    as (item & Hget & _ & _ & Hf).
  exists item. split; [exact Hget |].
  apply Hf; [cbn; tauto | reflexivity].
Defined.

(** X17: two [create] messages dispatched one after the other get the
    identifiers of two successive draws; when the two draws differ and
    the store answers both times, both records are in the table
    afterwards: the second does not overwrite the first. *)
Theorem successive_creates_store_two_records env m1 m2 u1 u2 w :
  parse_event env m1 = Some (u1, Some (JStr "create")) ->
  parse_event env m2 = Some (u2, Some (JStr "create")) ->
  valid_payload u1 = true -> valid_payload u2 = true ->
  then_store_up env m1 w ->
  uuid_at env (uuid_calls w) <> uuid_at env (S (uuid_calls w)) ->
  let w1 := snd (handleUserEvent env m1 w) in
  let w2 := snd (handleUserEvent env m2 w1) in
  exists item1 item2,
    new_item env u1 w = Some item1 /\ new_item env u2 w1 = Some item2
    /\ table w2 !! uuid_at env (uuid_calls w) = Some item1
    /\ table w2 !! uuid_at env (S (uuid_calls w)) = Some item2.
Proof.
  intros Hp1 Hp2 Hv1 Hv2 [Hup Hup1] Hne w1 w2.
  destruct (new_item_valid env u1 w Hv1) as [item1 Hit1].
  destruct (new_item_valid env u2 w1 Hv2) as [item2 Hit2].
  exists item1, item2. split; [exact Hit1 |]. split; [exact Hit2 |].
  destruct (create_accepted env m1 u1 item1 w Hp1 Hit1) as (_ & _ & Ht1).
  destruct (create_accepted env m2 u2 item2 w1 Hp2 Hit2) as (_ & _ & Ht2).
  assert (Hn : uuid_calls w1 = S (uuid_calls w))
    by (apply (create_uuid_calls env m1 u1 w Hp1); eauto).
  split.
  - subst w2. rewrite (create_other_keys env m2 u2 w1 _ Hp2).
    + subst w1. rewrite (Ht1 Hup). apply lookup_insert_eq.
    + rewrite Hn. exact Hne.
  - subst w2. rewrite (Ht2 Hup1), Hn. apply lookup_insert_eq.
Qed.

Lemma successive_creates_store_two_records_witness :
  let w1 := snd (handleUserEvent demo_env_ann (msg body_create_john) world_abc) in
  let w2 := snd (handleUserEvent demo_env_ann (msg body_create_ann) w1) in
  is_Some (table w2 !! "0b7e6a7e-0000-4000-8000-000000000000")
  /\ is_Some (table w2 !! "0b7e6a7e-0000-4000-8000-000000000001").
Proof.
  cbv zeta.
  assert (Hup : then_store_up demo_env_ann (msg body_create_john) world_abc)
    by (split; vm_compute; reflexivity).
  destruct (successive_creates_store_two_records demo_env_ann
              (msg body_create_john) (msg body_create_ann) user_john user_ann
              world_abc eq_refl eq_refl eq_refl eq_refl Hup
              ltac:(discriminate))
    as (item1 & item2 & _ & _ & H1 & H2).
  split; eauto.
Defined.

(** X18: an [update] whose payload has no (or a falsy) [dob] leaves the
    record with an empty date of birth, and [getUserStatus] refuses an
    empty date of birth: once such an update has been applied to a
    record, no call of [getUserStatus] returns that record, whatever the
    arguments. *)
Theorem update_without_dob_hides_the_record env m user k rec fn ln w :
  parse_event env m = Some (user, Some (JStr "update")) ->
  reaches_record env user k rec w ->
  truthy (prop user "dob") = false ->
  as_string (js_or (prop user "firstName") (JStr "")) = Some fn ->
  as_string (js_or (prop user "lastName") (JStr "")) = Some ln ->
  let w' := snd (handleUserEvent env m w) in
  field (table w') k "dob" = Some (AV_S "")
  /\ (forall email dob st w2,
        table w2 = table w' ->
        fst (getUserStatus email dob w2) <> Ok (Some k, st)).
Proof.
  intros Hp Hr Hfalsy Hfn Hln w'. subst w'.
  assert (Hd : as_string (js_or (prop user "dob") (JStr "")) = Some "")
    by (rewrite (js_or_falsy _ _ Hfalsy); reflexivity).
  destruct (update_accepted env m user k rec fn ln "" w Hp Hr Hfn Hln Hd)
    as [_ Ht].
  assert (Hdob : field (table (snd (handleUserEvent env m w))) k "dob"
                 = Some (AV_S "")).
  { rewrite Ht. unfold field, updated_record. rewrite lookup_insert_eq.
    by simplify_map_eq. }
  split; [exact Hdob |].
  intros email dob st w2 Hw2 Hget.
  destruct (getUserStatus_sound email dob w2 (Some k) st Hget)
    as (e & d & k' & rec' & _ & _ & _ & Hdne & Hk' & _ & Hd' & Hid & _).
  destruct Hr as (_ & _ & Hwf & _).
  pose proof (handleUserEvent_wf env m w Hwf) as Hwf'.
  rewrite Hw2 in Hk'. specialize (Hwf' k' rec' Hk'). cbn in Hwf'.
  unfold has_id in Hwf'. unfold attr_S in Hid.
  destruct (rec' !! "id") as [[s | | | | |] |]; try discriminate.
  apply String.eqb_eq in Hwf'. injection Hid as ->. subst k'.
  unfold field in Hdob. rewrite Hk' in Hdob. rewrite Hdob in Hd'.
  injection Hd' as <-. congruence.
Qed.

(** Example 2 of the specification: after it, the record [abc] cannot
    be found by its email and date of birth any more. *)
Lemma update_without_dob_hides_the_record_witness :
  fst (getUserStatus (Some "jane@x.com") (Some "1990-01-01") world_abc)
  = Ok (Some "abc", Some "active")
  /\ fst (getUserStatus (Some "jane@x.com") (Some "1990-01-01")
            (snd (handleUserEvent demo_env (msg body_update_abc) world_abc)))
     <> Ok (Some "abc", Some "updated").
Proof.
  split; [vm_compute; reflexivity |].
  destruct (update_without_dob_hides_the_record demo_env (msg body_update_abc)
              user_update_abc "abc" record_abc "Jane" "" world_abc eq_refl
              (reaches_record_abc user_update_abc eq_refl eq_refl)
              eq_refl eq_refl eq_refl) as [_ H].
  apply H. reflexivity.
Defined.

(** X19: after an [updateStatus] has been applied to the one record with
    a given email and date of birth, [getUserStatus] for that email and
    date of birth returns the record's key with the new status. *)
Theorem updated_status_is_what_getUserStatus_returns env m user k rec st e d w :
  parse_event env m = Some (user, Some (JStr "updateStatus")) ->
  reaches_record env user k rec w ->
  as_string (js_or (prop user "status") (JStr "")) = Some st ->
  e <> "" -> d <> "" ->
  rec !! "email" = Some (AV_S e) -> rec !! "dob" = Some (AV_S d) ->
  (forall k' r', table w !! k' = Some r' ->
                 has_email_dob e d r' = true -> k' = k) ->
  store_up (snd (handleUserEvent env m w)) = true ->
  fst (getUserStatus (Some e) (Some d) (snd (handleUserEvent env m w)))
  = Ok (Some k, Some st).
Proof.
  intros Hp Hr Hst He Hd Hem Hdob Huniq Hup'.
  destruct (updateStatus_accepted env m user k rec st w Hp Hr Hst) as [_ Ht].
  pose proof Hr as (_ & _ & Hwf & Hrec & _).
  rewrite (getUserStatus_unique e d k
             (restatused_record rec st (update_time env w)) _ He Hd
             (handleUserEvent_wf env m w Hwf) Hup').
  - unfold attr_S, restatused_record. by simplify_map_eq.
  - rewrite Ht. apply lookup_insert_eq.
  - unfold restatused_record. by simplify_map_eq.
  - unfold restatused_record. by simplify_map_eq.
  - intros k' r' Hk' Hm. destruct (decide (k' = k)) as [-> | Hne];
      [reflexivity |].
    rewrite Ht, lookup_insert_ne in Hk' by congruence.
    exact (Huniq k' r' Hk' Hm).
Qed.

Lemma updated_status_is_what_getUserStatus_returns_witness :
  fst (getUserStatus (Some "jane@x.com") (Some "1990-01-01")
         (snd (handleUserEvent demo_env (msg body_status_abc) world_abc)))
  = Ok (Some "abc", Some "suspended").
Proof.
  apply (updated_status_is_what_getUserStatus_returns demo_env
           (msg body_status_abc) user_status_abc "abc" record_abc);
    try discriminate; try reflexivity.
  - exact (reaches_record_abc user_status_abc eq_refl eq_refl).
  - intros k' r' Hk _. unfold world_abc in Hk. cbn [table set_table] in Hk.
    destruct (decide (k' = "abc")) as [-> | Hne]; [reflexivity |].
    rewrite lookup_insert_ne in Hk by congruence.
    rewrite lookup_empty in Hk. discriminate.
Defined.

(** X20: what an invocation of [pollQueue] that goes wrong leaves
    behind.  When nothing was received it logs "Queue is empty" and
    touches nothing else.  A receive request that fails and a delete
    request that fails are logged by the same [catch] with the same
    entry, "Error polling SQS queue:", so the log does not tell a
    message that was applied but not deleted from a failed poll. *)
Theorem poll_failures_are_logged_alike env w :
  (nothing_received w = true ->
   snd (pollQueue env w)
   = schedule (After pollingInterval)
       (log_to LOG "Queue is empty, waiting before next poll..." NoArg
          (received w)))
  /\ (forall rest, sqs_inbox w = RecvFails :: rest ->
        snd (pollQueue env w)
        = schedule (After pollingInterval)
            (set_logs (logs w ++ [poll_error]) (received w)))
  /\ (forall m ms rest,
        sqs_inbox w = RecvResponse (Some (m :: ms)) :: rest ->
        any_fault (length (take 10 (m :: ms))) (sqs_delete_faults w) = true ->
        last (logs (snd (pollQueue env w))) = Some poll_error
        /\ timers (snd (pollQueue env w))
           = (timers w ++ [After pollingInterval])%list).
Proof.
  split.
  { unfold nothing_received. intros Hn. rewrite pollQueue_unfold.
    destruct (sqs_inbox w) as [| [| [[| m ms] |]] inbox];
      try discriminate; reflexivity. }
  split.
  { intros rest Hin. rewrite pollQueue_unfold, Hin. reflexivity. }
  intros m ms rest Hin Hfault. rewrite pollQueue_unfold, Hin.
  pose proof (for_of_process_effect env (take 10 (m :: ms)) (received w)) as Hf.
  cbv zeta in Hf. destruct Hf as (Hr & _ & Ht & _).
  change (sqs_delete_faults (received w)) with (sqs_delete_faults w) in Hr.
  rewrite Hfault in Hr.
  destruct (for_of (take 10 (m :: ms)) (process_message env) (received w))
    as [[[] | e] w2]; cbn [fst snd] in *; [discriminate |].
  injection Hr as ->. split.
  - cbn [schedule log_to logs set_logs set_timers]. apply last_snoc.
  - cbn [schedule log_to timers set_logs set_timers]. rewrite Ht. reflexivity.
Qed.

Lemma poll_failures_are_logged_alike_witness :
  last (logs (snd (pollQueue demo_env world_two_messages))) = Some poll_error
  /\ last (logs (snd (pollQueue demo_env
                        (set_sqs_inbox [RecvFails] world_abc))))
     = Some poll_error.
Proof.
  split.
  - destruct (poll_failures_are_logged_alike demo_env world_two_messages)
      as (_ & _ & H).
    exact (proj1 (H (msg_with body_create_john "rh-1")
                    [msg_with body_update_abc "rh-2"] [] eq_refl eq_refl)).
  - destruct (poll_failures_are_logged_alike demo_env
                (set_sqs_inbox [RecvFails] world_abc)) as (_ & H & _).
    rewrite (H [] eq_refl). reflexivity.
Defined.

End Consumer.
